(** * pkg/api/common/helper.go: validation messages and runtime configs

    A shallow embedding of [HandleValidationErrors], [GetDockerConfig],
    [GetContainerdConfig] and the override functions of helper.go, with the
    properties the specification states about them.

    Conventions of the embedding:
    - a Go [string] is a [string] (a sequence of bytes);
    - a Go [int] is a [Z];
    - a value of interface type [error] is an [option]: [nil] is [None];
    - a call that may panic returns an [outcome];
    - a map is a [go_map]: the [nil] map is [None], reading it finds
      nothing and storing into it panics, as in Go;
    - a slice is an [option (list _)]: the [nil] slice is [None];
    - a function taking [*T] and mutating it takes the [T] and returns the
      new [T] next to its result. *)

From Stdlib Require Import ZArith String Ascii DecimalString.
From stdpp Require Import base option gmap strings list sorting.

Open Scope Z_scope.

(** ** Outcomes of a call *)

Inductive panic : Type :=
  | IndexOutOfRange
  | InterfaceConversion
  | AssignmentToNilMap.

Inductive outcome (A : Type) : Type :=
  | Returns (a : A)
  | Panics (p : panic).
Arguments Returns {A} a.
Arguments Panics {A} p.

#[global] Instance outcome_ret : MRet outcome := fun A a => Returns a.

#[global] Instance outcome_bind : MBind outcome := fun A B k m =>
  match m with
  | Returns a => k a
  | Panics p => Panics p
  end.

(** ** The parts of package [strings] the file calls *)

(** [len(s) >= len(prefix) && s[0:len(prefix)] == prefix] *)
Definition strings_HasPrefix (s prefix : string) : bool :=
  (String.length prefix <=? String.length s)%nat
  && String.eqb (substring 0 (String.length prefix) s) prefix.

(** [len(s) >= len(suffix) && s[len(s)-len(suffix):] == suffix] *)
Definition strings_HasSuffix (s suffix : string) : bool :=
  (String.length suffix <=? String.length s)%nat
  && String.eqb
       (substring (String.length s - String.length suffix)
                  (String.length suffix) s)
       suffix.

(** [Index(s, substr) >= 0]: [substr] starts at some offset of [s]. *)
Fixpoint strings_Contains (s substr : string) : bool :=
  strings_HasPrefix s substr
  || match s with
     | EmptyString => false
     | String _ s' => strings_Contains s' substr
     end.

(** The [case a, b, c:] of a switch over a string. *)
Definition case_of (ns : string) (labels : list string) : bool :=
  existsb (String.eqb ns) labels.

(** ** Errors (packages [errors] and [fmt]) *)

Record error_value : Type := errorString { Error : string }.

Abbreviation error := (option error_value).
Abbreviation nil := (@None error_value).

(** ** Validation failures (package [validator]) *)

(** The dynamic value behind an [interface{}]: an [int], a [string], or a
    value of another type. *)
Inductive value : Type :=
  | VInt (n : Z)
  | VString (s : string)
  | VOther.

(** [x.(int)] and [x.(string)]: the one-result type assertions. *)
Definition assert_int (x : value) : outcome Z :=
  match x with
  | VInt n => Returns n
  | _ => Panics InterfaceConversion
  end.

Definition assert_string (x : value) : outcome string :=
  match x with
  | VString s => Returns s
  | _ => Panics InterfaceConversion
  end.

Record FieldError : Type := mkFieldError {
  Namespace : string;
  Value : value;
  Tag : string
}.

Abbreviation ValidationErrors := (list FieldError).

(** The operands [Errorf] receives in this file. *)
Inductive operand : Type :=
  | OString (s : string)
  | OInt (n : Z)
  | OErrors (e : ValidationErrors).

(** [%d] of an [int]. *)
Definition itoa (n : Z) : string := NilZero.string_of_int (Z.to_int n).

(** What the validator library and the two encoders do is outside this
    file; they are taken as they come. *)
Class Validator : Type := {
  (** [ValidationErrors.Error()], which [%+v] prints. *)
  ValidationErrors_Error : ValidationErrors -> string
}.

Section Fmt.
Context `{Validator}.

(** One operand under one verb. The file only ever pairs [%s] with a
    string, [%d] with an int and [%+v] with the failures; any other
    pairing prints as a bad verb. *)
Definition fmt_operand (verb : string) (o : option operand) : string :=
  match o with
  | None => "%!" +:+ verb +:+ "(MISSING)"
  | Some (OString s) =>
      if String.eqb verb "d" then "%!d(string=" +:+ s +:+ ")" else s
  | Some (OInt n) =>
      if String.eqb verb "s" then "%!s(int=" +:+ itoa n +:+ ")" else itoa n
  | Some (OErrors e) =>
      if String.eqb verb "d" then "%!d(validator.ValidationErrors)"
      else ValidationErrors_Error e
  end.

(** [fmt.Sprintf] for the verbs [%s], [%d] and [%+v]. *)
Fixpoint Sprintf (format : string) (a : list operand) : string :=
  match format with
  | EmptyString => EmptyString
  | String c rest =>
      if Ascii.eqb c "%" then
        match rest with
        | EmptyString => "%!(NOVERB)"
        | String v rest1 =>
            if Ascii.eqb v "s" then
              fmt_operand "s" (head a) +:+ Sprintf rest1 (tail a)
            else if Ascii.eqb v "d" then
              fmt_operand "d" (head a) +:+ Sprintf rest1 (tail a)
            else if Ascii.eqb v "+" then
              match rest1 with
              | EmptyString => "%!+(NOVERB)"
              | String _ rest2 =>
                  fmt_operand "v" (head a) +:+ Sprintf rest2 (tail a)
              end
            else String c (Sprintf rest a)
        end
      else String c (Sprintf rest a)
  end.

Definition errors_New (text : string) : error :=
  Some (errorString text).

Definition errors_Errorf (format : string) (a : list operand) : error :=
  Some (errorString (Sprintf format a)).
End Fmt.

(** ** Constants of the package that helper.go reads *)

Class Constants : Type := {
  MinAgentCount : Z;
  MaxAgentCount : Z;
  MinPort : Z;
  MaxPort : Z;
  MaxDisks : Z;
  MinDiskSizeGB : Z;
  MaxDiskSizeGB : Z;
  MinIPAddressCount : Z;
  MaxIPAddressCount : Z;
  StorageAccount : string;
  ManagedDisks : string;
  Ephemeral : string;
  ContainerDataDirKey : string
}.

(** ** HandleValidationErrors *)

Section Translate.
Context `{Validator} `{Constants}.

Definition HandleValidationErrors (e : ValidationErrors) : outcome error :=
  match e with
  | [] => Panics IndexOutOfRange
  | err :: _ =>
    let ns := Namespace err in
    let not_caught :=
      Returns (errors_Errorf "Namespace %s is not caught, %+v"
                             [OString ns; OErrors e]) in
    if case_of ns
         ["Properties.OrchestratorProfile";
          "Properties.OrchestratorProfile.OrchestratorType";
          "Properties.MasterProfile";
          "Properties.MasterProfile.DNSPrefix";
          "Properties.MasterProfile.VMSize";
          "Properties.LinuxProfile";
          "Properties.ServicePrincipalProfile.ClientID";
          "Properties.WindowsProfile.AdminUsername";
          "Properties.WindowsProfile.AdminPassword"]
    then Returns (errors_Errorf "missing %s" [OString ns])
    else if case_of ns ["Properties.MasterProfile.Count"]
    then Returns (errors_New "MasterProfile count needs to be 1, 3, or 5")
    else if case_of ns ["Properties.MasterProfile.OSDiskSizeGB"]
    then
      n ← assert_int (Value err);
      Returns (errors_Errorf
        "Invalid os disk size of %d specified.  The range of valid values are [%d, %d]"
        [OInt n; OInt MinDiskSizeGB; OInt MaxDiskSizeGB])
    else if case_of ns ["Properties.MasterProfile.IPAddressCount"]
    then
      Returns (errors_Errorf
        "MasterProfile.IPAddressCount needs to be in the range [%d,%d]"
        [OInt MinIPAddressCount; OInt MaxIPAddressCount])
    else if case_of ns ["Properties.MasterProfile.StorageProfile"]
    then
      s ← assert_string (Value err);
      Returns (errors_Errorf
        "Unknown storageProfile '%s'. Specify either %s or %s"
        [OString s; OString StorageAccount; OString ManagedDisks])
    else
      if strings_HasPrefix ns "Properties.AgentPoolProfiles" then
        if strings_HasSuffix ns ".Name" || strings_HasSuffix ns "VMSize"
        then Returns (errors_Errorf "missing %s" [OString ns])
        else if strings_HasSuffix ns ".Count"
        then
          Returns (errors_Errorf
            "AgentPoolProfile count needs to be in the range [%d,%d]"
            [OInt MinAgentCount; OInt MaxAgentCount])
        else if strings_HasSuffix ns ".OSDiskSizeGB"
        then
          n ← assert_int (Value err);
          Returns (errors_Errorf
            "Invalid os disk size of %d specified.  The range of valid values are [%d, %d]"
            [OInt n; OInt MinDiskSizeGB; OInt MaxDiskSizeGB])
        else if strings_Contains ns ".Ports"
        then
          Returns (errors_Errorf
            "AgentPoolProfile Ports must be in the range[%d, %d]"
            [OInt MinPort; OInt MaxPort])
        else if strings_HasSuffix ns ".StorageProfile"
        then
          s ← assert_string (Value err);
          Returns (errors_Errorf
            "Unknown storageProfile '%s'. Specify %s, %s, or %s"
            [OString s; OString StorageAccount; OString ManagedDisks;
             OString Ephemeral])
        else if strings_Contains ns ".DiskSizesGB"
        then
          Returns (errors_Errorf
            "A maximum of %d disks may be specified, The range of valid disk size values are [%d, %d]"
            [OInt MaxDisks; OInt MinDiskSizeGB; OInt MaxDiskSizeGB])
        else if strings_HasSuffix ns ".IPAddressCount"
        then
          Returns (errors_Errorf
            "AgentPoolProfile.IPAddressCount needs to be in the range [%d,%d]"
            [OInt MinIPAddressCount; OInt MaxIPAddressCount])
        else not_caught
      else not_caught
  end.
End Translate.

(** The table of the first stage and the rules of the second, as the
    specification words them: the rules are tried in order and the first
    that applies decides. *)
Definition exact_paths : list string :=
  ["Properties.OrchestratorProfile";
   "Properties.OrchestratorProfile.OrchestratorType";
   "Properties.MasterProfile";
   "Properties.MasterProfile.DNSPrefix";
   "Properties.MasterProfile.VMSize";
   "Properties.MasterProfile.Count";
   "Properties.MasterProfile.OSDiskSizeGB";
   "Properties.MasterProfile.IPAddressCount";
   "Properties.MasterProfile.StorageProfile";
   "Properties.LinuxProfile";
   "Properties.WindowsProfile.AdminUsername";
   "Properties.WindowsProfile.AdminPassword";
   "Properties.ServicePrincipalProfile.ClientID"].

Inductive template : Type :=
  | MissingField
  | AgentCountRange
  | OSDiskSizeRange
  | PortRange
  | UnknownStorageProfile
  | DiskSizesRange
  | IPAddressCountRange.

Definition spec_pattern_rules : list ((string -> bool) * template) :=
  [ (fun ns => strings_HasSuffix ns ".Name" || strings_HasSuffix ns ".VMSize",
     MissingField);
    (fun ns => strings_HasSuffix ns ".Count", AgentCountRange);
    (fun ns => strings_HasSuffix ns ".OSDiskSizeGB", OSDiskSizeRange);
    (fun ns => strings_Contains ns ".Ports", PortRange);
    (fun ns => strings_HasSuffix ns ".StorageProfile", UnknownStorageProfile);
    (fun ns => strings_Contains ns ".DiskSizesGB", DiskSizesRange);
    (fun ns => strings_HasSuffix ns ".IPAddressCount", IPAddressCountRange) ].

Fixpoint first_rule (rules : list ((string -> bool) * template)) (ns : string)
  : option template :=
  match rules with
  | [] => None
  | (applies, t) :: rules' =>
      if applies ns then Some t else first_rule rules' ns
  end.

Section Templates.
Context `{Constants}.

(** The text of a template of the second stage. The two templates that
    quote the offending value have a text for a value of the type they
    print, and none otherwise. *)
Definition template_text (t : template) (ns : string) (v : value)
  : option string :=
  match t with
  | MissingField => Some ("missing " +:+ ns)
  | AgentCountRange =>
      Some ("AgentPoolProfile count needs to be in the range ["
            +:+ itoa MinAgentCount +:+ "," +:+ itoa MaxAgentCount +:+ "]")
  | OSDiskSizeRange =>
      match v with
      | VInt n =>
          Some ("Invalid os disk size of " +:+ itoa n
                +:+ " specified.  The range of valid values are ["
                +:+ itoa MinDiskSizeGB +:+ ", " +:+ itoa MaxDiskSizeGB
                +:+ "]")
      | _ => None
      end
  | PortRange =>
      Some ("AgentPoolProfile Ports must be in the range["
            +:+ itoa MinPort +:+ ", " +:+ itoa MaxPort +:+ "]")
  | UnknownStorageProfile =>
      match v with
      | VString s =>
          Some ("Unknown storageProfile '" +:+ s +:+ "'. Specify "
                +:+ StorageAccount +:+ ", " +:+ ManagedDisks +:+ ", or "
                +:+ Ephemeral)
      | _ => None
      end
  | DiskSizesRange =>
      Some ("A maximum of " +:+ itoa MaxDisks
            +:+ " disks may be specified, The range of valid disk size values are ["
            +:+ itoa MinDiskSizeGB +:+ ", " +:+ itoa MaxDiskSizeGB +:+ "]")
  | IPAddressCountRange =>
      Some ("AgentPoolProfile.IPAddressCount needs to be in the range ["
            +:+ itoa MinIPAddressCount +:+ "," +:+ itoa MaxIPAddressCount
            +:+ "]")
  end.
End Templates.

(** The suffix and substring tests of the second stage, as the code makes
    them. *)
Definition agent_pool_pattern (ns : string) : bool :=
  strings_HasSuffix ns ".Name" || strings_HasSuffix ns "VMSize"
  || strings_HasSuffix ns ".Count"
  || strings_HasSuffix ns ".OSDiskSizeGB"
  || strings_Contains ns ".Ports"
  || strings_HasSuffix ns ".StorageProfile"
  || strings_Contains ns ".DiskSizesGB"
  || strings_HasSuffix ns ".IPAddressCount".

(** A path one of the two stages handles. *)
Definition caught (ns : string) : bool :=
  case_of ns exact_paths
  || strings_HasPrefix ns "Properties.AgentPoolProfiles"
     && agent_pool_pattern ns.

(** The offending value has the type its template prints: an [int] under
    a path ending in [.OSDiskSizeGB], a [string] under one ending in
    [.StorageProfile]. *)
Definition value_fits (err : FieldError) : bool :=
  (if strings_HasSuffix (Namespace err) ".OSDiskSizeGB"
   then match Value err with VInt _ => true | _ => false end
   else true)
  && (if strings_HasSuffix (Namespace err) ".StorageProfile"
      then match Value err with VString _ => true | _ => false end
      else true).

(** ** The two configurations *)

Definition go_map (K : Type) `{Countable K} (V : Type) : Type :=
  option (gmap K V).

Definition make_map {K} `{Countable K} {V} : go_map K V := Some ∅.

(** [v, ok := m[k]] *)
Definition map_index {K} `{Countable K} {V} (m : go_map K V) (k : K)
  : option V :=
  match m with
  | Some g => g !! k
  | None => None
  end.

(** [m[k] = v] *)
Definition map_store {K} `{Countable K} {V} (m : go_map K V) (k : K) (v : V)
  : outcome (go_map K V) :=
  match m with
  | Some g => Returns (Some (<[k := v]> g))
  | None => Panics AssignmentToNilMap
  end.

Record DockerDaemonRuntime : Type := mkDockerDaemonRuntime {
  Path : string;
  RuntimeArgs : option (list string)
}.

(** The struct declarations are in another file of the package; helper.go
    names the fields below, and what else a struct holds is carried along
    in one more field of a type that is left open. *)
Class Schema : Type := {
  DockerConfig_more : Type;
  ContainerdConfig_more : Type;
  Plugins_more : Type;
  IoContainerdGrpcV1Cri_more : Type;
  CNI_more : Type
}.

Section Configs.
Context `{Schema}.

Record DockerConfig : Type := mkDockerConfig {
  DataRoot : string;
  DefaultRuntime : string;
  DockerDaemonRuntimes : go_map string DockerDaemonRuntime;
  DockerConfig_rest : DockerConfig_more
}.

Record CNIConfig : Type := mkCNIConfig {
  ConfTemplate : string;
  CNI_rest : CNI_more
}.

Record CriConfig : Type := mkCriConfig {
  SandboxImage : string;
  CNI : CNIConfig;
  IoContainerdGrpcV1Cri_rest : IoContainerdGrpcV1Cri_more
}.

Record PluginsConfig : Type := mkPluginsConfig {
  IoContainerdGrpcV1Cri : CriConfig;
  Plugins_rest : Plugins_more
}.

Record ContainerdConfig : Type := mkContainerdConfig {
  Root : string;
  Plugins : PluginsConfig;
  ContainerdConfig_rest : ContainerdConfig_more
}.

(** Assignments to one field. *)
Definition set_DataRoot (x : string) (c : DockerConfig) : DockerConfig :=
  mkDockerConfig x (DefaultRuntime c) (DockerDaemonRuntimes c)
                 (DockerConfig_rest c).

Definition set_DefaultRuntime (x : string) (c : DockerConfig)
  : DockerConfig :=
  mkDockerConfig (DataRoot c) x (DockerDaemonRuntimes c)
                 (DockerConfig_rest c).

Definition set_DockerDaemonRuntimes
    (x : go_map string DockerDaemonRuntime) (c : DockerConfig)
  : DockerConfig :=
  mkDockerConfig (DataRoot c) (DefaultRuntime c) x (DockerConfig_rest c).

Definition set_Root (x : string) (c : ContainerdConfig)
  : ContainerdConfig :=
  mkContainerdConfig x (Plugins c) (ContainerdConfig_rest c).

Definition set_Cri (x : CriConfig) (c : ContainerdConfig)
  : ContainerdConfig :=
  mkContainerdConfig (Root c)
    (mkPluginsConfig x (Plugins_rest (Plugins c)))
    (ContainerdConfig_rest c).

Definition set_SandboxImage (x : string) (c : ContainerdConfig)
  : ContainerdConfig :=
  let cri := IoContainerdGrpcV1Cri (Plugins c) in
  set_Cri (mkCriConfig x (CNI cri) (IoContainerdGrpcV1Cri_rest cri)) c.

Definition set_ConfTemplate (x : string) (c : ContainerdConfig)
  : ContainerdConfig :=
  let cri := IoContainerdGrpcV1Cri (Plugins c) in
  set_Cri (mkCriConfig (SandboxImage cri)
                       (mkCNIConfig x (CNI_rest (CNI cri)))
                       (IoContainerdGrpcV1Cri_rest cri)) c.
End Configs.

(** ** GetDockerConfig and GetContainerdConfig *)

(** The constructors of the defaults are in another file of the package. *)
Class Defaults `{Schema} : Type := {
  GetDefaultDockerConfig : DockerConfig;
  GetDefaultContainerdConfig : ContainerdConfig
}.

(** [json.MarshalIndent(config, prefix, indent)] read as a string, and the
    buffer after [toml.NewEncoder(buf).Encode(config)], each with the
    error the encoder returns. *)
Class Encoders `{Schema} : Type := {
  json_MarshalIndent : DockerConfig -> string -> string -> string * error;
  toml_Encode : ContainerdConfig -> string * error
}.

(** [func(config *C) error]: the configuration after the call and its
    result. *)
Abbreviation override C := (C -> outcome (C * error)).

(** [for i := range overrides { if err := overrides[i](&config); err != nil
    { return "", err } }]: the configuration after the loop, or the error
    that ended it. *)
Fixpoint range_overrides {C} (overrides : list (override C)) (config : C)
  : outcome (C + error_value) :=
  match overrides with
  | [] => Returns (inl config)
  | f :: overrides' =>
      r ← f config;
      match r with
      | (_, Some err) => Returns (inr err)
      | (config', None) => range_overrides overrides' config'
      end
  end.

Section Compose.
Context `{Constants} `{Defaults} `{!Encoders}.

Definition GetDockerConfig (opts : go_map string string)
    (overrides : list (override DockerConfig)) : outcome (string * error) :=
  let config := GetDefaultDockerConfig in
  r ← range_overrides overrides config;
  match r with
  | inr err => Returns (EmptyString, Some err)
  | inl config =>
      let config :=
        match map_index opts ContainerDataDirKey with
        | Some dataDir => set_DataRoot dataDir config
        | None => config
        end in
      let '(b, err) := json_MarshalIndent config "" "    " in
      Returns (b, err)
  end.

Definition GetContainerdConfig (opts : go_map string string)
    (overrides : list (override ContainerdConfig))
  : outcome (string * error) :=
  let config := GetDefaultContainerdConfig in
  r ← range_overrides overrides config;
  match r with
  | inr err => Returns (EmptyString, Some err)
  | inl config =>
      let config :=
        match map_index opts ContainerDataDirKey with
        | Some dataDir => set_Root dataDir config
        | None => config
        end in
      let '(buf, err) := toml_Encode config in
      Returns (buf, err)
  end.
End Compose.

Section Overrides.
Context `{Schema}.

Definition ContainerdKubenetOverride : override ContainerdConfig :=
  fun config =>
    Returns (set_ConfTemplate "/etc/containerd/kubenet_template.conf" config,
             nil).

Definition ContainerdSandboxImageOverrider (image : string)
  : override ContainerdConfig :=
  fun config => Returns (set_SandboxImage image config, nil).

Definition DockerNvidiaOverride : override DockerConfig :=
  fun config =>
    let config :=
      match DockerDaemonRuntimes config with
      | None => set_DockerDaemonRuntimes make_map config
      | Some _ => config
      end in
    let config := set_DefaultRuntime "nvidia" config in
    runtimes ← map_store (DockerDaemonRuntimes config) "nvidia"
                 (mkDockerDaemonRuntime "/usr/bin/nvidia-container-runtime"
                                        (Some []));
    Returns (set_DockerDaemonRuntimes runtimes config, nil).

(** An override that assigns one field and returns [nil]. *)
Definition assigns {C V} (set : V -> C -> C) (x : V) : override C :=
  fun config => Returns (set x config, nil).

(** An override that leaves the field behind [set] alone: it does the
    same whatever the field holds, and hands the field back as it got
    it. *)
Definition leaves_alone {C V} (set : V -> C -> C) (f : override C) : Prop :=
  forall x config,
    f (set x config) = (r ← f config; Returns (set x r.1, r.2)).
End Overrides.

(** ** The calls a composition makes

    The same two functions, next to the list of the calls they make to
    the overrides and to the encoder, in the order they make them. *)

Inductive call : Type :=
  | CallOverride (i : nat)
  | CallEncoder.

Fixpoint range_overrides_calls {C} (i : nat) (overrides : list (override C))
    (config : C) : outcome (C + error_value) * list call :=
  match overrides with
  | [] => (Returns (inl config), [])
  | f :: overrides' =>
      match f config with
      | Panics p => (Panics p, [CallOverride i])
      | Returns (_, Some err) => (Returns (inr err), [CallOverride i])
      | Returns (config', None) =>
          let '(r, calls) := range_overrides_calls (S i) overrides' config' in
          (r, CallOverride i :: calls)
      end
  end.

Section ComposeCalls.
Context `{Constants} `{Defaults} `{!Encoders}.

Definition GetDockerConfig_calls (opts : go_map string string)
    (overrides : list (override DockerConfig))
  : outcome (string * error) * list call :=
  let config := GetDefaultDockerConfig in
  match range_overrides_calls 0 overrides config with
  | (Panics p, calls) => (Panics p, calls)
  | (Returns (inr err), calls) => (Returns (EmptyString, Some err), calls)
  | (Returns (inl config), calls) =>
      let config :=
        match map_index opts ContainerDataDirKey with
        | Some dataDir => set_DataRoot dataDir config
        | None => config
        end in
      let '(b, err) := json_MarshalIndent config "" "    " in
      (Returns (b, err), calls ++ [CallEncoder])
  end.

Definition GetContainerdConfig_calls (opts : go_map string string)
    (overrides : list (override ContainerdConfig))
  : outcome (string * error) * list call :=
  let config := GetDefaultContainerdConfig in
  match range_overrides_calls 0 overrides config with
  | (Panics p, calls) => (Panics p, calls)
  | (Returns (inr err), calls) => (Returns (EmptyString, Some err), calls)
  | (Returns (inl config), calls) =>
      let config :=
        match map_index opts ContainerDataDirKey with
        | Some dataDir => set_Root dataDir config
        | None => config
        end in
      let '(buf, err) := toml_Encode config in
      (Returns (buf, err), calls ++ [CallEncoder])
  end.
End ComposeCalls.

(** ** The other helpers of helper.go *)

(** *** More of package [strings] *)

(** [if HasSuffix(s, suffix) { return s[:len(s)-len(suffix)] }; return s] *)
Definition strings_TrimSuffix (s suffix : string) : string :=
  if strings_HasSuffix s suffix
  then substring 0 (String.length s - String.length suffix) s
  else s.

(** [ToLower] as Go computes it for a string of ASCII bytes: the letters
    A to Z move to a to z, every other byte stays. (On other strings Go
    works rune by rune; what is proved through this function is stated for
    ASCII strings.) *)
Definition lower_byte (c : ascii) : ascii :=
  if (Ascii.leb "A" c && Ascii.leb c "Z")%bool
  then ascii_of_nat (nat_of_ascii c + 32)
  else c.

Fixpoint strings_ToLower (s : string) : string :=
  match s with
  | EmptyString => EmptyString
  | String c s' => String (lower_byte c) (strings_ToLower s')
  end.

Fixpoint all_bytes (p : ascii -> bool) (s : string) : bool :=
  match s with
  | EmptyString => true
  | String c s' => p c && all_bytes p s'
  end.

Definition is_ascii (s : string) : bool :=
  all_bytes (fun c => Ascii.leb c "127") s.

(** [Split(s, sep)] for a separator that is not empty: the pieces between
    the occurrences of [sep], found from the left and not overlapping.
    [skip] counts the bytes of an occurrence still to pass, [piece] is the
    piece being read. For the empty separator Go cuts after every UTF-8
    sequence, which for ASCII text is after every byte. *)
Fixpoint split_from (sep : string) (skip : nat) (piece s : string)
  : list string :=
  match s with
  | EmptyString => [piece]
  | String c s' =>
      match skip with
      | S skip' => split_from sep skip' piece s'
      | O =>
          if strings_HasPrefix s sep
          then piece :: split_from sep (String.length sep - 1) EmptyString s'
          else split_from sep 0 (piece +:+ String c EmptyString) s'
      end
  end.

Fixpoint explode (s : string) : list string :=
  match s with
  | EmptyString => []
  | String c s' => String c EmptyString :: explode s'
  end.

Definition strings_Split (s sep : string) : list string :=
  match sep with
  | EmptyString => explode s
  | _ => split_from sep 0 EmptyString s
  end.

(** *** The GPU and SGX tables *)

Definition NvidiaEnabledSKUs : gmap string bool :=
  list_to_map
    [ (* K80 *)
      ("Standard_NC6", true);
      ("Standard_NC12", true);
      ("Standard_NC24", true);
      ("Standard_NC24r", true);
      (* M60 *)
      ("Standard_NV6", true);
      ("Standard_NV12", true);
      ("Standard_NV12s_v3", true);
      ("Standard_NV24", true);
      ("Standard_NV24s_v3", true);
      ("Standard_NV24r", true);
      ("Standard_NV48s_v3", true);
      (* P40 *)
      ("Standard_ND6s", true);
      ("Standard_ND12s", true);
      ("Standard_ND24s", true);
      ("Standard_ND24rs", true);
      (* P100 *)
      ("Standard_NC6s_v2", true);
      ("Standard_NC12s_v2", true);
      ("Standard_NC24s_v2", true);
      ("Standard_NC24rs_v2", true);
      (* V100 *)
      ("Standard_NC6s_v3", true);
      ("Standard_NC12s_v3", true);
      ("Standard_NC24s_v3", true);
      ("Standard_NC24rs_v3", true);
      ("Standard_ND40s_v3", true);
      ("Standard_ND40rs_v2", true);
      (* T4 *)
      ("Standard_NC4as_T4_v3", true);
      ("Standard_NC8as_T4_v3", true);
      ("Standard_NC16as_T4_v3", true);
      ("Standard_NC64as_T4_v3", true) ].

Definition IsNvidiaEnabledSKU (vmSize : string) : bool :=
  let vmSize := strings_TrimSuffix vmSize "_Promo" in
  match NvidiaEnabledSKUs !! vmSize with
  | Some _ => default false (NvidiaEnabledSKUs !! vmSize)
  | None => false
  end.

Definition IsSgxEnabledSKU (vmSize : string) : bool :=
  if case_of vmSize ["Standard_DC2s"; "Standard_DC4s"] then true else false.

Section StorageAccountType.
Context `{Validator}.

Definition GetStorageAccountType (sizeName : string) : string * error :=
  let spl := strings_Split sizeName "_" in
  if (length spl <? 2)%nat
  then (EmptyString, errors_Errorf "Invalid sizeName: %s" [OString sizeName])
  else
    (* spl[1]: in range, the slice has two elements or more *)
    let capability := default EmptyString (spl !! 1%nat) in
    if strings_Contains (strings_ToLower capability) "s"
    then ("Premium_LRS", nil)
    else ("Standard_LRS", nil).
End StorageAccountType.

(** *** ValidateDNSPrefix *)

(** The syntax of package [regexp] that the pattern of the file uses: a
    character class of byte ranges, one expression after another, and a
    bounded repetition [r{min,max}]. *)
Inductive regexp : Type :=
  | CharClass (ranges : list (ascii * ascii))
  | Concat (r1 r2 : regexp)
  | Repeat (r : regexp) (min max : nat).

Definition in_class (ranges : list (ascii * ascii)) (c : ascii) : bool :=
  existsb (fun range => Ascii.leb range.1 c && Ascii.leb c range.2) ranges.

(** The texts that are left of [s] after a prefix of it that [step]
    matches between [min] and [max] times in a row. *)
Fixpoint repeat_from (step : string -> list string) (min max : nat)
    (s : string) : list string :=
  (match min with O => [s] | S _ => [] end)
  ++ match max with
     | O => []
     | S max' => s' ← step s; repeat_from step (pred min) max' s'
     end.

(** The texts that are left of [s] after a prefix of it that [r] matches. *)
Fixpoint remainders (r : regexp) (s : string) : list string :=
  match r with
  | CharClass ranges =>
      match s with
      | String c s' => if in_class ranges c then [s'] else []
      | EmptyString => []
      end
  | Concat r1 r2 => s' ← remainders r1 s; remainders r2 s'
  | Repeat r' min max => repeat_from (remainders r') min max s
  end.

(** [MatchString] for a pattern [^(r)$]: [r] matches the whole text. *)
Definition regexp_MatchString (r : regexp) (s : string) : bool :=
  existsb (String.eqb EmptyString) (remainders r s).

(** [^([A-Za-z][A-Za-z0-9-]{1,43}[A-Za-z0-9])$], between its anchors. *)
Definition dnsNameRegex : regexp :=
  Concat (CharClass [("A", "Z"); ("a", "z")]%char)
    (Concat
       (Repeat (CharClass [("A", "Z"); ("a", "z"); ("0", "9"); ("-", "-")]%char)
               1 43)
       (CharClass [("A", "Z"); ("a", "z"); ("0", "9")]%char)).

Section DNSPrefix.
Context `{Validator}.

(** The pattern is a constant that compiles, so the error of
    [regexp.Compile] is [nil] and its branch is never taken. *)
Definition ValidateDNSPrefix (dnsName : string) : error :=
  let re := dnsNameRegex in
  if negb (regexp_MatchString re dnsName)
  then
    errors_Errorf
      "DNSPrefix '%s' is invalid. The DNSPrefix must contain between 3 and 45 characters and can contain only letters, numbers, and hyphens.  It must start with a letter and must end with a letter or a number. (length was %d)"
      [OString dnsName; OInt (Z.of_nat (String.length dnsName))]
  else nil.
End DNSPrefix.

(** *** GetOrderedEscapedKeyValsString *)

(** The double quote, byte 34. *)
Definition dquote : ascii := "034"%char.

(** [sort.Strings]: ascending in the order of [<] on strings, which
    compares byte by byte. *)
Definition sort_Strings (keys : list string) : list string :=
  merge_sort String.le keys.

(** [m[k]] read as a value: the empty string when [k] is not a key. *)
Definition map_value (m : go_map string string) (k : string) : string :=
  default EmptyString (map_index m k).

Section KeyVals.
Context `{Validator}.

(** The function after its first loop, which has collected the keys of the
    map in the order [range] happened to yield them. *)
Definition keyVals_of_keys (config : go_map string string)
    (keys : list string) : string :=
  let keys := sort_Strings keys in
  let buf :=
    foldl (fun buf key =>
             buf +:+ Sprintf (String dquote "%s=%s" +:+ String dquote ", ")
                       [OString key; OString (map_value config key)])
          EmptyString keys in
  strings_TrimSuffix buf ", ".

(** One order [range] can yield the keys in. *)
Definition range_keys (config : go_map string string) : list string :=
  match config with
  | Some m => (map_to_list m).*1
  | None => []
  end.

Definition GetOrderedEscapedKeyValsString (config : go_map string string)
  : string :=
  keyVals_of_keys config (range_keys config).
End KeyVals.

(** *** IndentString *)

(** [bufio.MaxScanTokenSize]: the buffer of a [Scanner] grows to this
    size and no further. *)
Definition MaxScanTokenSize : Z := 64 * 1024.

(** [if len(data) > 0 && data[len(data)-1] == '\r' { return
    data[0 : len(data)-1] }; return data] *)
Definition dropCR (data : string) : string :=
  if strings_HasSuffix data (String "013" EmptyString)
  then substring 0 (String.length data - 1) data
  else data.

(** The texts [scanner.Text()] yields while [scanner.Scan()] is true, for
    a [Scanner] with the default split function [ScanLines] over [data];
    [line] holds the bytes read since the last newline. A line ends at a
    newline or at the end of the input; one carriage return before the
    newline is dropped; nothing is yielded for an empty rest after the
    last newline. A line has to fit the buffer together with its newline
    (or, at the end of the input, leave room for one more read): at a
    longer line [Scan] returns false, and the loop ends. *)
Fixpoint scan_lines (line data : string) : list string :=
  match data with
  | EmptyString =>
      if String.eqb line EmptyString then []
      else if Z.of_nat (String.length line) <? MaxScanTokenSize
           then [dropCR line]
           else []
  | String c data' =>
      if Ascii.eqb c "010"
      then
        if Z.of_nat (String.length line) <? MaxScanTokenSize
        then dropCR line :: scan_lines EmptyString data'
        else []
      else scan_lines (line +:+ String c EmptyString) data'
  end.

Fixpoint spaces_of (n : nat) : string :=
  match n with
  | O => EmptyString
  | S n' => " " +:+ spaces_of n'
  end.

(** [for i := 0; i < spaces; i++] runs [spaces] times, and not at all for
    a negative [spaces]. *)
Definition IndentString (original : string) (spaces : Z) : string :=
  foldl (fun out text =>
           out +:+ spaces_of (Z.to_nat spaces) +:+ text
           +:+ String "010" EmptyString)
        EmptyString (scan_lines EmptyString original).

(** ** Values to evaluate on

    The properties below hold for any constants, any rendering of the
    failures, any defaults and any encoders. Where a statement is
    evaluated on a concrete input, these are the ones used. *)

Definition sample_constants : Constants := {|
  MinAgentCount := 0;
  MaxAgentCount := 1000;
  MinPort := 1;
  MaxPort := 65535;
  MaxDisks := 4;
  MinDiskSizeGB := 1;
  MaxDiskSizeGB := 1023;
  MinIPAddressCount := 1;
  MaxIPAddressCount := 256;
  StorageAccount := "StorageAccount";
  ManagedDisks := "ManagedDisks";
  Ephemeral := "Ephemeral";
  ContainerDataDirKey := "dataDir"
|}.

Definition sample_line (fe : FieldError) : string :=
  "Key: '" +:+ Namespace fe +:+ "' failed on the '" +:+ Tag fe +:+ "' tag".

Definition sample_validator : Validator := {|
  ValidationErrors_Error := fun e => String.concat "; " (map sample_line e)
|}.

Definition sample_schema : Schema := {|
  DockerConfig_more := unit;
  ContainerdConfig_more := unit;
  Plugins_more := unit;
  IoContainerdGrpcV1Cri_more := unit;
  CNI_more := unit
|}.

Definition sample_defaults : @Defaults sample_schema := {|
  GetDefaultDockerConfig := @mkDockerConfig sample_schema "" "" None tt;
  GetDefaultContainerdConfig :=
    @mkContainerdConfig sample_schema ""
      (@mkPluginsConfig sample_schema
         (@mkCriConfig sample_schema ""
            (@mkCNIConfig sample_schema "" tt) tt)
         tt)
      tt
|}.

(** Encoders that print the fields helper.go names, one to a line. *)
Definition sample_line_of (prefix indent key x : string) : string :=
  prefix +:+ indent +:+ key +:+ " = " +:+ x +:+ "; ".

Definition sample_encoders : @Encoders sample_schema := {|
  json_MarshalIndent := fun config prefix indent =>
    (sample_line_of prefix indent "data-root" (DataRoot config)
     +:+ sample_line_of prefix indent "default-runtime" (DefaultRuntime config)
     +:+ sample_line_of prefix indent "runtimes"
           (match DockerDaemonRuntimes config with
            | Some runtimes =>
                String.concat ","
                  (map (fun kv => kv.1 +:+ ":" +:+ Path kv.2)
                       (map_to_list runtimes))
            | None => "null"
            end),
     nil);
  toml_Encode := fun config =>
    (sample_line_of "" "" "root" (Root config)
     +:+ sample_line_of "" "" "sandbox_image"
           (SandboxImage (IoContainerdGrpcV1Cri (Plugins config)))
     +:+ sample_line_of "" "" "conf_template"
           (ConfTemplate (CNI (IoContainerdGrpcV1Cri (Plugins config)))),
     nil)
|}.

Abbreviation translate_sample :=
  (@HandleValidationErrors sample_validator sample_constants).

Abbreviation GetDockerConfig_sample :=
  (@GetDockerConfig sample_constants sample_schema sample_defaults
     sample_encoders).

Abbreviation GetContainerdConfig_sample :=
  (@GetContainerdConfig sample_constants sample_schema sample_defaults
     sample_encoders).

(** ** Tactics for case analyses over boolean tests *)

Ltac split_false :=
  repeat match goal with
         | H : _ || _ = false |- _ =>
             apply orb_false_iff in H; destruct H
         end.

Ltac rewrite_false :=
  repeat match goal with
         | H : _ = false |- _ => rewrite ?H; clear H
         end.

Ltac rewrite_true H :=
  match type of H with
  | context [if ?b then _ else _] =>
      match goal with
      | E : b = true |- _ => rewrite E in H
      end
  end.

(** * Properties *)

(** ** Strings *)

#[local] Arguments String.append !s1 s2 : simpl nomatch.

Lemma append_empty_r (s : string) : s +:+ "" = s.
Proof. induction s as [|c s IH]; simpl; [done | by rewrite IH]. Qed.

Lemma append_assoc (a b c : string) : (a +:+ b) +:+ c = a +:+ (b +:+ c).
Proof. induction a as [|x a IH]; simpl; [done | by rewrite IH]. Qed.

Lemma length_append (a b : string) :
  String.length (a +:+ b) = (String.length a + String.length b)%nat.
Proof. induction a as [|x a IH]; simpl; [done | by rewrite IH]. Qed.

Lemma substring_all (s : string) : substring 0 (String.length s) s = s.
Proof. induction s as [|c s IH]; simpl; [done | by rewrite IH]. Qed.

Lemma substring_head (p q : string) :
  substring 0 (String.length p) (p +:+ q) = p.
Proof.
  induction p as [|c p IH]; simpl.
  - by destruct q.
  - by rewrite IH.
Qed.

Lemma substring_skip (p q : string) (n : nat) :
  substring (String.length p) n (p +:+ q) = substring 0 n q.
Proof. induction p as [|c p IH]; simpl; [done | apply IH]. Qed.

Lemma substring_split (s : string) (n : nat) :
  (n <= String.length s)%nat ->
  s = substring 0 n s +:+ substring n (String.length s - n) s.
Proof.
  revert n. induction s as [|c s IH]; intros [|n] Hn; simpl in *.
  - done.
  - lia.
  - by rewrite substring_all.
  - rewrite <- IH by lia. done.
Qed.

Lemma HasPrefix_true (s p : string) :
  strings_HasPrefix s p = true <-> exists q, s = p +:+ q.
Proof.
  unfold strings_HasPrefix. rewrite andb_true_iff, Nat.leb_le, String.eqb_eq.
  split.
  - intros [Hlen Hsub]. exists (substring (String.length p)
                                  (String.length s - String.length p) s).
    rewrite <- Hsub at 1. by apply substring_split.
  - intros [q ->]. rewrite length_append, substring_head. split; [lia | done].
Qed.

Lemma HasSuffix_true (s x : string) :
  strings_HasSuffix s x = true <-> exists p, s = p +:+ x.
Proof.
  unfold strings_HasSuffix. rewrite andb_true_iff, Nat.leb_le, String.eqb_eq.
  split.
  - intros [Hlen Hsub].
    exists (substring 0 (String.length s - String.length x) s).
    assert (Hs := substring_split s (String.length s - String.length x)
                    ltac:(lia)).
    replace (String.length s - (String.length s - String.length x))%nat
      with (String.length x) in Hs by lia.
    by rewrite Hsub in Hs.
  - intros [p ->]. rewrite length_append.
    replace (String.length p + String.length x - String.length x)%nat
      with (String.length p) by lia.
    rewrite substring_skip, substring_all. split; [lia | done].
Qed.

Lemma Contains_here (s x : string) :
  strings_HasPrefix s x = true -> strings_Contains s x = true.
Proof. intros Hp. destruct s; simpl; by rewrite Hp. Qed.

Lemma Contains_append (p s q : string) :
  strings_Contains (p +:+ s +:+ q) s = true.
Proof.
  induction p as [|c p IH]; simpl.
  - rewrite Contains_here; [done |]. apply HasPrefix_true. by exists q.
  - rewrite IH. apply orb_true_r.
Qed.

(** Two suffixes of one string: one is a suffix of the other. *)
Lemma append_eq_suffix (p q a b : string) :
  p +:+ a = q +:+ b -> (exists r, a = r +:+ b) \/ (exists r, b = r +:+ a).
Proof.
  revert q. induction p as [|c p IH]; intros q Heq; simpl in *.
  - left. by exists q.
  - destruct q as [|d q]; simpl in *.
    + right. exists (String c p). done.
    + injection Heq as _ Heq. by apply IH in Heq.
Qed.

Lemma HasSuffix_comparable (s a b : string) :
  strings_HasSuffix s a = true -> strings_HasSuffix s b = true ->
  strings_HasSuffix a b || strings_HasSuffix b a = true.
Proof.
  rewrite !HasSuffix_true. intros [p ->] [q Heq].
  apply orb_true_iff. rewrite !HasSuffix_true.
  by apply append_eq_suffix in Heq.
Qed.

(** A path with one suffix does not have another that neither ends nor is
    ended by the first. *)
Lemma HasSuffix_excludes (s a b : string) :
  strings_HasSuffix a b || strings_HasSuffix b a = false ->
  strings_HasSuffix s a = true -> strings_HasSuffix s b = false.
Proof.
  intros Hab Ha. destruct (strings_HasSuffix s b) eqn:Hb; [|done].
  by rewrite (HasSuffix_comparable s a b Ha Hb) in Hab.
Qed.

(** ** HandleValidationErrors *)

#[local] Arguments strings_HasPrefix : simpl never.
#[local] Arguments strings_HasSuffix : simpl never.
#[local] Arguments strings_Contains : simpl never.

Section TranslateFacts.
Context `{Validator} `{Constants}.

(** What [Errorf] prints is the text of an error made by [New]. *)
Ltac fmt_done :=
  unfold errors_Errorf, errors_New; simpl;
  rewrite ?append_empty_r; reflexivity.

Lemma exact_paths_split (ns : string) :
  case_of ns exact_paths = false ->
  case_of ns
    ["Properties.OrchestratorProfile";
     "Properties.OrchestratorProfile.OrchestratorType";
     "Properties.MasterProfile";
     "Properties.MasterProfile.DNSPrefix";
     "Properties.MasterProfile.VMSize";
     "Properties.LinuxProfile";
     "Properties.ServicePrincipalProfile.ClientID";
     "Properties.WindowsProfile.AdminUsername";
     "Properties.WindowsProfile.AdminPassword"] = false
  /\ case_of ns ["Properties.MasterProfile.Count"] = false
  /\ case_of ns ["Properties.MasterProfile.OSDiskSizeGB"] = false
  /\ case_of ns ["Properties.MasterProfile.IPAddressCount"] = false
  /\ case_of ns ["Properties.MasterProfile.StorageProfile"] = false.
Proof.
  unfold case_of, exact_paths. cbn [existsb]. intros Hx. split_false.
  repeat split; rewrite_false; reflexivity.
Qed.

Lemma agent_pool_not_exact (ns : string) :
  strings_HasPrefix ns "Properties.AgentPoolProfiles" = true ->
  case_of ns exact_paths = false.
Proof.
  intros Hp. unfold case_of. apply not_true_is_false. intros Hx.
  apply existsb_exists in Hx as (lit & Hin & Heq).
  apply String.eqb_eq in Heq. subst lit.
  unfold exact_paths in Hin. cbn [In] in Hin.
  repeat (destruct Hin as [<- | Hin]; [by vm_compute in Hp |]).
  done.
Qed.

Lemma not_caught_message (err : FieldError) (rest : ValidationErrors) :
  caught (Namespace err) = false ->
  HandleValidationErrors (err :: rest)
  = Returns (errors_Errorf "Namespace %s is not caught, %+v"
               [OString (Namespace err); OErrors (err :: rest)]).
Proof.
  unfold caught. intros Hc. apply orb_false_iff in Hc as [Hx Hp].
  apply exact_paths_split in Hx as (H1 & H2 & H3 & H4 & H5).
  unfold HandleValidationErrors. cbv zeta. rewrite H1, H2, H3, H4, H5.
  destruct (strings_HasPrefix _ _); [|done].
  cbn [andb] in Hp. unfold agent_pool_pattern in Hp. split_false.
  rewrite_false. done.
Qed.

Lemma exact_paths_join (ns : string) :
  case_of ns
    ["Properties.OrchestratorProfile";
     "Properties.OrchestratorProfile.OrchestratorType";
     "Properties.MasterProfile";
     "Properties.MasterProfile.DNSPrefix";
     "Properties.MasterProfile.VMSize";
     "Properties.LinuxProfile";
     "Properties.ServicePrincipalProfile.ClientID";
     "Properties.WindowsProfile.AdminUsername";
     "Properties.WindowsProfile.AdminPassword"] = false ->
  case_of ns ["Properties.MasterProfile.Count"] = false ->
  case_of ns ["Properties.MasterProfile.OSDiskSizeGB"] = false ->
  case_of ns ["Properties.MasterProfile.IPAddressCount"] = false ->
  case_of ns ["Properties.MasterProfile.StorageProfile"] = false ->
  case_of ns exact_paths = false.
Proof.
  unfold case_of, exact_paths. cbn [existsb]. intros.
  split_false. rewrite_false. reflexivity.
Qed.

Lemma case_of_one (ns lit : string) : case_of ns [lit] = true -> ns = lit.
Proof.
  unfold case_of. cbn [existsb]. rewrite orb_false_r. apply String.eqb_eq.
Qed.

(** Under a path one of the stages handles, the failures after the
    first are not looked at. *)
Lemma caught_ignores_rest (err : FieldError) (rest rest' : ValidationErrors) :
  caught (Namespace err) = true ->
  HandleValidationErrors (err :: rest) = HandleValidationErrors (err :: rest').
Proof.
  unfold caught, HandleValidationErrors. cbv zeta. intros Hc.
  destruct (case_of _ [_; _; _; _; _; _; _; _; _]) eqn:E1; [done|].
  destruct (case_of _ ["Properties.MasterProfile.Count"]) eqn:E2; [done|].
  destruct (case_of _ ["Properties.MasterProfile.OSDiskSizeGB"]) eqn:E3;
    [done|].
  destruct (case_of _ ["Properties.MasterProfile.IPAddressCount"]) eqn:E4;
    [done|].
  destruct (case_of _ ["Properties.MasterProfile.StorageProfile"]) eqn:E5;
    [done|].
  rewrite (exact_paths_join _ E1 E2 E3 E4 E5) in Hc. cbn [orb] in Hc.
  apply andb_true_iff in Hc as [-> Hp]. unfold agent_pool_pattern in Hp.
  repeat match goal with
         | |- (if ?b then _ else _) = _ => destruct b eqn:?; [reflexivity|]
         end.
  cbn [orb] in Hp. discriminate Hp.
Qed.

(** C1 (amended): under each path of the exact-match table a failure is
    translated to the template of that path: the nine paths of required
    fields to "missing <path>", the master count to its fixed sentence,
    the master OS disk size, for an int value, to the sentence quoting it
    with the bounds MinDiskSizeGB and MaxDiskSizeGB, the master IP address
    count to the sentence with MinIPAddressCount and MaxIPAddressCount,
    and the master storage profile, for a string value, to the sentence
    quoting it. *)
Theorem exact_table_messages
    (v : value) (tg : string) (rest : ValidationErrors) (n : Z) (s : string) :
  let translate ns x :=
    HandleValidationErrors (mkFieldError ns x tg :: rest) in
  Forall (fun ns => translate ns v = Returns (errors_New ("missing " +:+ ns)))
    ["Properties.OrchestratorProfile";
     "Properties.OrchestratorProfile.OrchestratorType";
     "Properties.MasterProfile";
     "Properties.MasterProfile.DNSPrefix";
     "Properties.MasterProfile.VMSize";
     "Properties.LinuxProfile";
     "Properties.WindowsProfile.AdminUsername";
     "Properties.WindowsProfile.AdminPassword";
     "Properties.ServicePrincipalProfile.ClientID"]
  /\ translate "Properties.MasterProfile.Count" v
     = Returns (errors_New "MasterProfile count needs to be 1, 3, or 5")
  /\ translate "Properties.MasterProfile.OSDiskSizeGB" (VInt n)
     = Returns (errors_New
         ("Invalid os disk size of " +:+ itoa n
          +:+ " specified.  The range of valid values are ["
          +:+ itoa MinDiskSizeGB +:+ ", " +:+ itoa MaxDiskSizeGB +:+ "]"))
  /\ translate "Properties.MasterProfile.IPAddressCount" v
     = Returns (errors_New
         ("MasterProfile.IPAddressCount needs to be in the range ["
          +:+ itoa MinIPAddressCount +:+ "," +:+ itoa MaxIPAddressCount
          +:+ "]"))
  /\ translate "Properties.MasterProfile.StorageProfile" (VString s)
     = Returns (errors_New
         ("Unknown storageProfile '" +:+ s +:+ "'. Specify either "
          +:+ StorageAccount +:+ " or " +:+ ManagedDisks)).
Proof.
  intros translate. subst translate. cbv beta.
  repeat split; repeat apply Forall_cons_2; try apply Forall_nil_2;
    unfold HandleValidationErrors; cbv zeta; fmt_done.
Qed.

(** C2 (amended): under a path that begins with
    Properties.AgentPoolProfiles, and that does not end in VMSize without
    the dot before it, the failure is translated to the text of the
    first rule, in the order of the specification, that applies to the
    path, when the value is of the type that text prints (an int for the
    OS disk size, a string for the storage profile); no path of the
    exact-match table begins with that prefix, so the rules are only
    reached when the table has no entry. *)
Theorem agent_pool_pattern_messages (err : FieldError)
    (rest : ValidationErrors) (t : template) (m : string) :
  strings_HasPrefix (Namespace err) "Properties.AgentPoolProfiles" = true ->
  strings_HasSuffix (Namespace err) "VMSize"
  = strings_HasSuffix (Namespace err) ".VMSize" ->
  first_rule spec_pattern_rules (Namespace err) = Some t ->
  template_text t (Namespace err) (Value err) = Some m ->
  HandleValidationErrors (err :: rest) = Returns (errors_New m)
  /\ case_of (Namespace err) exact_paths = false
  /\ Forall (fun ns =>
               strings_HasPrefix ns "Properties.AgentPoolProfiles" = false)
            exact_paths.
Proof.
  intros Hp Hdot Hrule Htext. split; [|split].
  - destruct (exact_paths_split _ (agent_pool_not_exact _ Hp))
      as (H1 & H2 & H3 & H4 & H5).
    unfold HandleValidationErrors. cbv zeta.
    rewrite H1, H2, H3, H4, H5, Hp, Hdot.
    clear H1 H2 H3 H4 H5 Hp Hdot.
    unfold spec_pattern_rules in Hrule. cbn [first_rule] in Hrule.
    revert Hrule.
    repeat match goal with
           | |- _ -> (if ?b then _ else _) = _ =>
               destruct b eqn:?;
               [ intros [= <-]; cbn [template_text] in Htext;
                 try (destruct (Value err); try discriminate Htext);
                 injection Htext as <-;
                 cbn [assert_int assert_string mbind outcome_bind];
                 fmt_done
               | ]
           end.
    discriminate.
  - by apply agent_pool_not_exact.
  - unfold exact_paths. repeat apply Forall_cons_2; try apply Forall_nil_2;
      reflexivity.
Qed.

(** Where the code gives the fallback message: a batch whose first
    failure has a path that is neither in the exact-match table nor, under
    the agent-pool prefix, matched by one of the suffix and substring
    tests the code makes (with VMSize tested without a dot), is translated
    to the fallback message; that message contains the path as it is and
    the rendering of the whole batch. *)
Theorem unrecognized_path_fallback (err : FieldError)
    (rest : ValidationErrors) :
  case_of (Namespace err) exact_paths = false ->
  strings_HasPrefix (Namespace err) "Properties.AgentPoolProfiles"
  && agent_pool_pattern (Namespace err) = false ->
  let text := "Namespace " +:+ Namespace err +:+ " is not caught, "
              +:+ ValidationErrors_Error (err :: rest) in
  HandleValidationErrors (err :: rest) = Returns (errors_New text)
  /\ strings_Contains text (Namespace err) = true
  /\ strings_Contains text (ValidationErrors_Error (err :: rest)) = true.
Proof.
  intros Hx Hp text. split; [|split].
  - rewrite not_caught_message by (unfold caught; by rewrite Hx, Hp).
    subst text. fmt_done.
  - apply Contains_append.
  - subst text.
    rewrite <- (append_empty_r (ValidationErrors_Error (err :: rest))) at 1.
    rewrite <- 2 append_assoc. apply Contains_append.
Qed.

(** C3: the fallback is missed for a path that ends in VMSize without a
    dot before it. The path Properties.AgentPoolProfiles[0].FallbackVMSize
    is not in the exact-match table and no rule of the second stage, as
    the specification words them (.VMSize among them), applies to it; yet
    for any value, tag and later failures the result is the missing-field
    message, not the fallback message with the path and the batch: the
    code tests the suffix VMSize, where every other suffix it tests
    starts with a dot. *)
Theorem fallback_missed_for_dotless_VMSize (v : value) (tg : string)
    (rest : ValidationErrors) :
  let ns := "Properties.AgentPoolProfiles[0].FallbackVMSize" in
  let err := mkFieldError ns v tg in
  case_of ns exact_paths = false
  /\ first_rule spec_pattern_rules ns = None
  /\ HandleValidationErrors (err :: rest)
     = Returns (errors_New ("missing " +:+ ns))
  /\ HandleValidationErrors (err :: rest)
     <> Returns (errors_New ("Namespace " +:+ ns +:+ " is not caught, "
                             +:+ ValidationErrors_Error (err :: rest))).
Proof.
  intros ns err.
  assert (Hcode : HandleValidationErrors (err :: rest)
                  = Returns (errors_New ("missing " +:+ ns)))
    by reflexivity.
  split; [reflexivity|]. split; [reflexivity|]. split; [exact Hcode|].
  rewrite Hcode. unfold errors_New. intros Heq.
  injection Heq as Heq. discriminate Heq.
Qed.


(** C8 (amended): for every non-empty batch whose first failure carries
    an int under a path ending in .OSDiskSizeGB and a string under a path
    ending in .StorageProfile, the translation returns, and returns a
    non-nil error; under a path one of the two stages handles, the result
    is the same whatever failures follow the first, and under any other
    path it is the fallback message for the first failure's path. *)
Theorem translate_returns_message (err : FieldError)
    (rest : ValidationErrors) :
  value_fits err = true ->
  (exists m, HandleValidationErrors (err :: rest) = Returns (errors_New m))
  /\ (caught (Namespace err) = true ->
      forall rest',
        HandleValidationErrors (err :: rest')
        = HandleValidationErrors (err :: rest))
  /\ (caught (Namespace err) = false ->
      HandleValidationErrors (err :: rest)
      = Returns (errors_New
          ("Namespace " +:+ Namespace err +:+ " is not caught, "
           +:+ ValidationErrors_Error (err :: rest)))).
Proof.
  intros Hfit. split; [|split].
  - destruct (caught (Namespace err)) eqn:Hc.
    2: { rewrite not_caught_message by done. by eexists. }
    destruct err as [ns v tg]. unfold value_fits in Hfit.
    cbn [Namespace Value] in *. apply andb_true_iff in Hfit as [Hi Hs].
    unfold caught in Hc. unfold HandleValidationErrors. cbv zeta.
    cbn [Namespace Value].
    destruct (case_of _ [_; _; _; _; _; _; _; _; _]) eqn:E1;
      [by eexists|].
    destruct (case_of _ ["Properties.MasterProfile.Count"]) eqn:E2;
      [by eexists|].
    destruct (case_of _ ["Properties.MasterProfile.OSDiskSizeGB"]) eqn:E3.
    { apply case_of_one in E3. subst ns. vm_compute in Hi.
      destruct v; try discriminate Hi. by eexists. }
    destruct (case_of _ ["Properties.MasterProfile.IPAddressCount"]) eqn:E4;
      [by eexists|].
    destruct (case_of _ ["Properties.MasterProfile.StorageProfile"]) eqn:E5.
    { apply case_of_one in E5. subst ns. vm_compute in Hs.
      destruct v; try discriminate Hs. by eexists. }
    rewrite (exact_paths_join _ E1 E2 E3 E4 E5) in Hc. cbn [orb] in Hc.
    apply andb_true_iff in Hc as [-> Hp]. unfold agent_pool_pattern in Hp.
    repeat match goal with
           | |- ex (fun _ => (if ?b then _ else _) = _) =>
               destruct b eqn:?;
               [ try rewrite_true Hi; try rewrite_true Hs;
                 try (destruct v; try discriminate); by eexists
               | ]
           end.
    cbn [orb] in Hp. discriminate Hp.
  - intros Hc rest'. by apply caught_ignores_rest.
  - intros Hc. rewrite not_caught_message by done. fmt_done.
Qed.
End TranslateFacts.

(** ** The loop over the overrides *)

Section Loop.
Context {C : Type}.
Implicit Types (overrides pre mid post : list (override C)) (config : C).

Lemma range_overrides_app pre post config :
  range_overrides (pre ++ post) config
  = (r ← range_overrides pre config;
     match r with
     | inl config' => range_overrides post config'
     | inr err => Returns (inr err)
     end).
Proof.
  revert config. induction pre as [|f pre IH]; intros config; [done|].
  cbn [app range_overrides]. destruct (f config) as [[config' [err|]]|p];
    cbn [mbind outcome_bind]; [done | apply IH | done].
Qed.

Lemma range_overrides_calls_fst overrides config i :
  (range_overrides_calls i overrides config).1
  = range_overrides overrides config.
Proof.
  revert config i. induction overrides as [|f overrides IH];
    intros config i; [done|].
  cbn [range_overrides_calls range_overrides].
  destruct (f config) as [[config' [err|]]|p];
    cbn [mbind outcome_bind]; [done | | done].
  rewrite <- (IH config' (S i)).
  by destruct (range_overrides_calls (S i) overrides config').
Qed.

(** While the overrides return [nil], each of them is called, in the
    order of the slice. *)
Lemma range_overrides_calls_all pre config config' i :
  range_overrides pre config = Returns (inl config') ->
  range_overrides_calls i pre config
  = (Returns (inl config'), CallOverride <$> seq i (length pre)).
Proof.
  revert config i. induction pre as [|f pre IH]; intros config i Hrun.
  - cbn in *. by injection Hrun as ->.
  - cbn [range_overrides_calls range_overrides] in *.
    destruct (f config) as [[config1 [err|]]|p];
      cbn [mbind outcome_bind] in Hrun; [done | | done].
    by rewrite (IH _ (S i) Hrun).
Qed.

(** The override that returns an error is the last one called. *)
Lemma range_overrides_calls_error pre f post config config' config1 err i :
  range_overrides pre config = Returns (inl config') ->
  f config' = Returns (config1, Some err) ->
  range_overrides_calls i (pre ++ f :: post) config
  = (Returns (inr err), CallOverride <$> seq i (S (length pre))).
Proof.
  revert config i. induction pre as [|g pre IH]; intros config i Hrun Hf.
  - cbn in Hrun. injection Hrun as ->.
    cbn [app range_overrides_calls]. by rewrite Hf.
  - cbn [app range_overrides_calls range_overrides] in *.
    destruct (g config) as [[config2 [err2|]]|p];
      cbn [mbind outcome_bind] in Hrun; [done | | done].
    by rewrite (IH _ (S i) Hrun Hf).
Qed.

Section Field.
Context {V : Type} (set : V -> C -> C).
Hypothesis set_set : forall x y config, set y (set x config) = set y config.

(** Two assignments to one field in a row are the second alone. *)
Lemma assigns_twice (a b : V) post config :
  range_overrides (assigns set a :: assigns set b :: post) config
  = range_overrides (assigns set b :: post) config.
Proof.
  cbn [range_overrides assigns mbind outcome_bind]. by rewrite set_set.
Qed.

(** An assignment moves behind overrides that leave its field alone. *)
Lemma assigns_commutes (a : V) mid post config :
  Forall (leaves_alone set) mid ->
  range_overrides (assigns set a :: mid ++ post) config
  = range_overrides (mid ++ assigns set a :: post) config.
Proof.
  intros Hmid. revert config.
  induction Hmid as [|f mid Hf _ IH]; intros config; [done|].
  cbn [app range_overrides assigns mbind outcome_bind] in *.
  rewrite (Hf a config).
  destruct (f config) as [[config' [err|]]|p];
    cbn [mbind outcome_bind fst snd]; [done | apply IH | done].
Qed.

Lemma assigns_overwritten (a b : V) pre mid post config :
  Forall (leaves_alone set) mid ->
  range_overrides (pre ++ assigns set a :: mid ++ assigns set b :: post)
                  config
  = range_overrides (pre ++ mid ++ assigns set b :: post) config.
Proof.
  intros Hmid. rewrite !range_overrides_app.
  destruct (range_overrides pre config) as [[config'|err]|p];
    cbn [mbind outcome_bind]; [|done|done].
  rewrite assigns_commutes by done.
  rewrite !range_overrides_app.
  destruct (range_overrides mid config') as [[config2|err]|p];
    cbn [mbind outcome_bind]; [|done|done].
  apply assigns_twice.
Qed.
End Field.
End Loop.

(** ** GetDockerConfig and GetContainerdConfig *)

Section ComposeFacts.
Context `{Constants} `{Defaults} `{!Encoders}.
Implicit Types (opts : go_map string string).

(** The two functions, and the two with their calls, return the same. *)
Lemma GetDockerConfig_calls_fst opts overrides :
  (GetDockerConfig_calls opts overrides).1 = GetDockerConfig opts overrides.
Proof.
  unfold GetDockerConfig_calls, GetDockerConfig.
  rewrite <- (range_overrides_calls_fst overrides GetDefaultDockerConfig 0).
  destruct (range_overrides_calls 0 overrides GetDefaultDockerConfig)
    as [[[config|err]|p] calls]; cbn [fst mbind outcome_bind]; try done.
  by destruct (json_MarshalIndent _ _ _).
Qed.

Lemma GetContainerdConfig_calls_fst opts overrides :
  (GetContainerdConfig_calls opts overrides).1
  = GetContainerdConfig opts overrides.
Proof.
  unfold GetContainerdConfig_calls, GetContainerdConfig.
  rewrite <- (range_overrides_calls_fst overrides
                GetDefaultContainerdConfig 0).
  destruct (range_overrides_calls 0 overrides GetDefaultContainerdConfig)
    as [[[config|err]|p] calls]; cbn [fst mbind outcome_bind]; try done.
  by destruct (toml_Encode _).
Qed.

(** After overrides that all return [nil], the text is the encoding of
    the configuration they leave, with the data directory of the options
    written over it when the options have one. *)
Lemma GetDockerConfig_encodes opts overrides config :
  range_overrides overrides GetDefaultDockerConfig = Returns (inl config) ->
  GetDockerConfig opts overrides
  = Returns (json_MarshalIndent
               match map_index opts ContainerDataDirKey with
               | Some dataDir => set_DataRoot dataDir config
               | None => config
               end "" "    ").
Proof.
  intros Hrun. unfold GetDockerConfig. rewrite Hrun.
  cbn [mbind outcome_bind]. by destruct (json_MarshalIndent _ _ _).
Qed.

Lemma GetContainerdConfig_encodes opts overrides config :
  range_overrides overrides GetDefaultContainerdConfig
  = Returns (inl config) ->
  GetContainerdConfig opts overrides
  = Returns (toml_Encode
               match map_index opts ContainerDataDirKey with
               | Some dataDir => set_Root dataDir config
               | None => config
               end).
Proof.
  intros Hrun. unfold GetContainerdConfig. rewrite Hrun.
  cbn [mbind outcome_bind]. by destruct (toml_Encode _).
Qed.

(** C4 (amended): the overrides are applied in the order of the slice, and of two
    overrides that assign the same field the later one decides: the
    result is the same as without the earlier one, whatever comes before
    the two or after them, when the overrides between them leave the
    field alone; with the two alone, the text is the encoding of the
    defaults with the later value in the field (and then the data
    directory of the options, when there is one). An assignment to a
    field is a function [set] for which a second assignment replaces the
    first. *)
Theorem later_override_wins {V W : Type}
    (setD : V -> DockerConfig -> DockerConfig)
    (setC : W -> ContainerdConfig -> ContainerdConfig)
    opts (a b : V) (a' b' : W)
    (pre mid post : list (override DockerConfig))
    (pre' mid' post' : list (override ContainerdConfig)) :
  (forall x y config, setD y (setD x config) = setD y config) ->
  (forall x y config, setC y (setC x config) = setC y config) ->
  Forall (leaves_alone setD) mid ->
  Forall (leaves_alone setC) mid' ->
  GetDockerConfig opts
    (pre ++ assigns setD a :: mid ++ assigns setD b :: post)
  = GetDockerConfig opts (pre ++ mid ++ assigns setD b :: post)
  /\ GetDockerConfig opts [assigns setD a; assigns setD b]
     = Returns (json_MarshalIndent
                  match map_index opts ContainerDataDirKey with
                  | Some dataDir =>
                      set_DataRoot dataDir (setD b GetDefaultDockerConfig)
                  | None => setD b GetDefaultDockerConfig
                  end "" "    ")
  /\ GetContainerdConfig opts
       (pre' ++ assigns setC a' :: mid' ++ assigns setC b' :: post')
     = GetContainerdConfig opts (pre' ++ mid' ++ assigns setC b' :: post')
  /\ GetContainerdConfig opts [assigns setC a'; assigns setC b']
     = Returns (toml_Encode
                  match map_index opts ContainerDataDirKey with
                  | Some dataDir =>
                      set_Root dataDir (setC b' GetDefaultContainerdConfig)
                  | None => setC b' GetDefaultContainerdConfig
                  end).
Proof.
  intros HsetD HsetC Hmid Hmid'. repeat split.
  - unfold GetDockerConfig. by rewrite assigns_overwritten.
  - apply GetDockerConfig_encodes.
    cbn [range_overrides assigns mbind outcome_bind]. by rewrite HsetD.
  - unfold GetContainerdConfig. by rewrite assigns_overwritten.
  - apply GetContainerdConfig_encodes.
    cbn [range_overrides assigns mbind outcome_bind]. by rewrite HsetC.
Qed.

(** C5: after overrides that all return [nil] and leave a configuration,
    when the options hold the data-directory key its value is written to
    DataRoot (docker) or Root (containerd) of that configuration before
    it is encoded, whatever the overrides left there; when the key is
    absent the configuration is encoded as the overrides left it. *)
Theorem data_dir_option_wins opts
    (overridesD : list (override DockerConfig))
    (overridesC : list (override ContainerdConfig))
    (configD : DockerConfig) (configC : ContainerdConfig) :
  range_overrides overridesD GetDefaultDockerConfig
  = Returns (inl configD) ->
  range_overrides overridesC GetDefaultContainerdConfig
  = Returns (inl configC) ->
  (forall dataDir,
      map_index opts ContainerDataDirKey = Some dataDir ->
      GetDockerConfig opts overridesD
      = Returns (json_MarshalIndent (set_DataRoot dataDir configD)
                                    "" "    ")
      /\ DataRoot (set_DataRoot dataDir configD) = dataDir
      /\ GetContainerdConfig opts overridesC
         = Returns (toml_Encode (set_Root dataDir configC))
      /\ Root (set_Root dataDir configC) = dataDir)
  /\ (map_index opts ContainerDataDirKey = None ->
      GetDockerConfig opts overridesD
      = Returns (json_MarshalIndent configD "" "    ")
      /\ GetContainerdConfig opts overridesC
         = Returns (toml_Encode configC)).
Proof.
  intros HD HC. split.
  - intros dataDir Hkey.
    rewrite (GetDockerConfig_encodes opts _ _ HD).
    rewrite (GetContainerdConfig_encodes opts _ _ HC).
    by rewrite Hkey.
  - intros Hkey.
    rewrite (GetDockerConfig_encodes opts _ _ HD).
    rewrite (GetContainerdConfig_encodes opts _ _ HC).
    by rewrite Hkey.
Qed.

(** C6: when the overrides before one return [nil] and that one returns
    an error, the composition returns the empty text and that very
    error; the calls made are those to the overrides up to and including
    the failing one, so no later override is called and neither is the
    encoder. *)
Theorem failing_override_aborts opts
    (preD postD : list (override DockerConfig)) (fD : override DockerConfig)
    (preC postC : list (override ContainerdConfig))
    (fC : override ContainerdConfig)
    (configD configD' : DockerConfig) (configC configC' : ContainerdConfig)
    (errD errC : error_value) :
  range_overrides preD GetDefaultDockerConfig = Returns (inl configD) ->
  fD configD = Returns (configD', Some errD) ->
  range_overrides preC GetDefaultContainerdConfig = Returns (inl configC) ->
  fC configC = Returns (configC', Some errC) ->
  GetDockerConfig opts (preD ++ fD :: postD)
  = Returns (EmptyString, Some errD)
  /\ GetDockerConfig_calls opts (preD ++ fD :: postD)
     = (Returns (EmptyString, Some errD),
        CallOverride <$> seq 0 (S (length preD)))
  /\ GetContainerdConfig opts (preC ++ fC :: postC)
     = Returns (EmptyString, Some errC)
  /\ GetContainerdConfig_calls opts (preC ++ fC :: postC)
     = (Returns (EmptyString, Some errC),
        CallOverride <$> seq 0 (S (length preC))).
Proof.
  intros HpreD HfD HpreC HfC.
  assert (HD : GetDockerConfig_calls opts (preD ++ fD :: postD)
               = (Returns (EmptyString, Some errD),
                  CallOverride <$> seq 0 (S (length preD)))).
  { unfold GetDockerConfig_calls. cbv zeta.
    by rewrite (range_overrides_calls_error _ _ postD _ _ _ _ 0 HpreD HfD). }
  assert (HC : GetContainerdConfig_calls opts (preC ++ fC :: postC)
               = (Returns (EmptyString, Some errC),
                  CallOverride <$> seq 0 (S (length preC)))).
  { unfold GetContainerdConfig_calls. cbv zeta.
    by rewrite (range_overrides_calls_error _ _ postC _ _ _ _ 0 HpreC HfC). }
  repeat split; try done.
  - by rewrite <- GetDockerConfig_calls_fst, HD.
  - by rewrite <- GetContainerdConfig_calls_fst, HC.
Qed.

(** C10: DockerNvidiaOverride returns [nil], and never panics; it leaves
    a configuration whose DefaultRuntime is "nvidia" and whose runtimes
    are those it found, in the map it found when there was one and in a
    new map when there was none, with "nvidia" bound to the path
    /usr/bin/nvidia-container-runtime and an empty, non-nil list of
    arguments; DataRoot, the other fields and the runtimes under other
    keys are as before. *)
Theorem nvidia_override_effect (config : DockerConfig) :
  let nvidia :=
    mkDockerDaemonRuntime "/usr/bin/nvidia-container-runtime" (Some []) in
  exists config',
    DockerNvidiaOverride config = Returns (config', nil)
    /\ DefaultRuntime config' = "nvidia"
    /\ DockerDaemonRuntimes config'
       = Some (<["nvidia" := nvidia]>
                 match DockerDaemonRuntimes config with
                 | Some runtimes => runtimes
                 | None => ∅
                 end)
    /\ map_index (DockerDaemonRuntimes config') "nvidia" = Some nvidia
    /\ (forall k, k <> "nvidia" ->
          map_index (DockerDaemonRuntimes config') k
          = map_index (DockerDaemonRuntimes config) k)
    /\ DataRoot config' = DataRoot config
    /\ DockerConfig_rest config' = DockerConfig_rest config.
Proof.
  intros nvidia. destruct config as [root runtime [runtimes|] more];
    eexists; (split; [reflexivity|]); cbn; repeat split;
    try apply lookup_insert_eq;
    intros k Hk; by rewrite lookup_insert_ne.
Qed.

(** With no override and no data-directory option, the text is the
    encoding of the defaults. *)
Lemma no_overrides_encode_defaults opts :
  map_index opts ContainerDataDirKey = None ->
  GetDockerConfig opts []
  = Returns (json_MarshalIndent GetDefaultDockerConfig "" "    ")
  /\ GetContainerdConfig opts []
     = Returns (toml_Encode GetDefaultContainerdConfig).
Proof.
  intros Hkey.
  rewrite (GetDockerConfig_encodes opts [] GetDefaultDockerConfig) by done.
  rewrite (GetContainerdConfig_encodes opts [] GetDefaultContainerdConfig)
    by done.
  by rewrite Hkey.
Qed.
End ComposeFacts.

(** ** The statements evaluated on concrete inputs *)

(** C1, as it was stated, fails: a failure under
    Properties.MasterProfile.StorageProfile whose value is an int is not
    translated to a message; the type assertion panics. *)
Lemma exact_table_int_storage_profile_panics :
  translate_sample
    [mkFieldError "Properties.MasterProfile.StorageProfile" (VInt 3) "oneof"]
  = Panics InterfaceConversion.
Proof. reflexivity. Qed.

(** C2, as it was stated, fails: a failure under
    Properties.AgentPoolProfiles[0].OSDiskSizeGB whose value is a string is
    not translated to the disk-size message; the type assertion panics. *)
Lemma agent_pool_string_disk_size_panics :
  translate_sample
    [mkFieldError "Properties.AgentPoolProfiles[0].OSDiskSizeGB"
                  (VString "big") "min"]
  = Panics InterfaceConversion.
Proof. reflexivity. Qed.

Lemma agent_pool_pattern_messages_witness :
  translate_sample
    [mkFieldError "Properties.AgentPoolProfiles[2].Count" (VInt 2000) "max"]
  = Returns (errors_New
      "AgentPoolProfile count needs to be in the range [0,1000]")
  /\ case_of "Properties.AgentPoolProfiles[2].Count" exact_paths = false
  /\ Forall (fun ns =>
               strings_HasPrefix ns "Properties.AgentPoolProfiles" = false)
            exact_paths.
Proof.
  apply (@agent_pool_pattern_messages sample_validator sample_constants
           (mkFieldError "Properties.AgentPoolProfiles[2].Count"
                         (VInt 2000) "max")
           [] AgentCountRange);
    reflexivity.
Defined.

Lemma unrecognized_path_fallback_witness :
  translate_sample
    [mkFieldError "Properties.Bogus.Field" VOther "required";
     mkFieldError "Properties.MasterProfile.Count" (VInt 2) "oneof"]
  = Returns (errors_New
      "Namespace Properties.Bogus.Field is not caught, Key: 'Properties.Bogus.Field' failed on the 'required' tag; Key: 'Properties.MasterProfile.Count' failed on the 'oneof' tag").
Proof.
  exact (proj1 (@unrecognized_path_fallback sample_validator sample_constants
                  (mkFieldError "Properties.Bogus.Field" VOther "required")
                  [mkFieldError "Properties.MasterProfile.Count" (VInt 2)
                                "oneof"]
                  eq_refl eq_refl)).
Defined.

(** The suffix VMSize is tested without the dot the other suffixes have:
    the path Properties.AgentPoolProfiles[0].FallbackVMSize, which no rule
    of the specification applies to, is translated to the missing-field
    message. *)
Lemma vmsize_without_dot_is_caught :
  translate_sample
    [mkFieldError "Properties.AgentPoolProfiles[0].FallbackVMSize" VOther
                  "required"]
  = Returns (errors_New "missing Properties.AgentPoolProfiles[0].FallbackVMSize")
  /\ case_of "Properties.AgentPoolProfiles[0].FallbackVMSize" exact_paths
     = false
  /\ first_rule spec_pattern_rules
       "Properties.AgentPoolProfiles[0].FallbackVMSize"
     = None.
Proof. repeat split; reflexivity. Qed.


(** C8, as it was stated, fails: a failure under
    Properties.MasterProfile.OSDiskSizeGB whose value is a string makes the
    translation panic; it returns no message. *)
Lemma master_string_disk_size_panics :
  translate_sample
    [mkFieldError "Properties.MasterProfile.OSDiskSizeGB" (VString "big")
                  "min"]
  = Panics InterfaceConversion.
Proof. reflexivity. Qed.

Lemma translate_returns_message_witness :
  exists m,
    translate_sample
      [mkFieldError "Properties.MasterProfile.OSDiskSizeGB" (VInt 4096) "max";
       mkFieldError "Properties.Bogus.Field" VOther "required"]
    = Returns (errors_New m).
Proof.
  exact (proj1 (@translate_returns_message sample_validator sample_constants
                  (mkFieldError "Properties.MasterProfile.OSDiskSizeGB"
                                (VInt 4096) "max")
                  [mkFieldError "Properties.Bogus.Field" VOther "required"]
                  eq_refl)).
Defined.

Lemma nvidia_leaves_DataRoot_alone :
  leaves_alone (@set_DataRoot sample_schema) DockerNvidiaOverride.
Proof. intros x [root runtime [runtimes|] more]; reflexivity. Defined.

Lemma kubenet_leaves_SandboxImage_alone :
  leaves_alone (@set_SandboxImage sample_schema) ContainerdKubenetOverride.
Proof. intros x [root [[image cni more1] more2] more3]; reflexivity. Defined.

(** C4, as it was stated, fails for the data-directory field: with the
    data-directory key in the options, two overrides that assign DataRoot
    /a and then /b leave an encoded configuration whose DataRoot is
    neither, but the value of the option, as with no override at all. *)
Lemma later_DataRoot_override_loses_to_option :
  GetDockerConfig_sample (Some {[ "dataDir" := "/mnt/c" ]})
    [assigns set_DataRoot "/a"; assigns set_DataRoot "/b"]
  = Returns (@json_MarshalIndent sample_schema sample_encoders
               (@mkDockerConfig sample_schema "/mnt/c" "" None tt) "" "    ")
  /\ GetDockerConfig_sample (Some {[ "dataDir" := "/mnt/c" ]})
       [assigns set_DataRoot "/a"; assigns set_DataRoot "/b"]
     = GetDockerConfig_sample (Some {[ "dataDir" := "/mnt/c" ]}) [].
Proof. split; vm_compute; reflexivity. Qed.

Lemma later_override_wins_witness :
  GetDockerConfig_sample None
    ([DockerNvidiaOverride] ++ assigns set_DataRoot "/a"
       :: [DockerNvidiaOverride] ++ assigns set_DataRoot "/b" :: [])
  = GetDockerConfig_sample None
      ([DockerNvidiaOverride] ++ [DockerNvidiaOverride]
         ++ assigns set_DataRoot "/b" :: [])
  /\ GetDockerConfig_sample None
       [assigns set_DataRoot "/a"; assigns set_DataRoot "/b"]
     = Returns (@json_MarshalIndent sample_schema sample_encoders
                  (@mkDockerConfig sample_schema "/b" "" None tt) "" "    ")
  /\ GetContainerdConfig_sample None
       ([] ++ ContainerdSandboxImageOverrider "pause:3.1"
          :: [ContainerdKubenetOverride]
          ++ ContainerdSandboxImageOverrider "pause:3.2" :: [])
     = GetContainerdConfig_sample None
         ([] ++ [ContainerdKubenetOverride]
            ++ ContainerdSandboxImageOverrider "pause:3.2" :: [])
  /\ GetContainerdConfig_sample None
       [ContainerdSandboxImageOverrider "pause:3.1";
        ContainerdSandboxImageOverrider "pause:3.2"]
     = Returns (@toml_Encode sample_schema sample_encoders
                  (@set_SandboxImage sample_schema "pause:3.2"
                     (@GetDefaultContainerdConfig sample_schema
                        sample_defaults))).
Proof.
  apply (@later_override_wins sample_constants sample_schema sample_defaults
           sample_encoders string string set_DataRoot set_SandboxImage None
           "/a" "/b" "pause:3.1" "pause:3.2"
           [DockerNvidiaOverride] [DockerNvidiaOverride] []
           [] [ContainerdKubenetOverride] []).
  - intros x y [root runtime runtimes more]; reflexivity.
  - intros x y [root [[image cni more1] more2] more3]; reflexivity.
  - apply Forall_cons_2; [apply nvidia_leaves_DataRoot_alone | apply Forall_nil_2].
  - apply Forall_cons_2;
      [apply kubenet_leaves_SandboxImage_alone | apply Forall_nil_2].
Defined.

Lemma data_dir_option_wins_witness :
  GetDockerConfig_sample (Some {[ "dataDir" := "/mnt/c" ]})
    [assigns set_DataRoot "/a"]
  = Returns (@json_MarshalIndent sample_schema sample_encoders
               (@mkDockerConfig sample_schema "/mnt/c" "" None tt) "" "    ")
  /\ GetContainerdConfig_sample (Some {[ "dataDir" := "/mnt/c" ]})
       [assigns set_Root "/a"]
     = Returns (@toml_Encode sample_schema sample_encoders
                  (set_Root "/mnt/c"
                     (@GetDefaultContainerdConfig sample_schema
                        sample_defaults))).
Proof.
  assert (Hkey : map_index (Some {[ "dataDir" := "/mnt/c" ]})
                   (@ContainerDataDirKey sample_constants)
                 = Some "/mnt/c") by (vm_compute; reflexivity).
  destruct (proj1 (@data_dir_option_wins sample_constants sample_schema
                     sample_defaults sample_encoders
                     (Some {[ "dataDir" := "/mnt/c" ]})
                     [assigns set_DataRoot "/a"] [assigns set_Root "/a"]
                     _ _ eq_refl eq_refl)
                  "/mnt/c" Hkey)
    as (HD & _ & HC & _).
  split; [exact HD | exact HC].
Defined.

Lemma failing_override_aborts_witness :
  let fails (C : Type) : override C :=
    fun config => Returns (config, Some (errorString "no gpu")) in
  GetDockerConfig_sample (Some {[ "dataDir" := "/mnt/c" ]})
    ([DockerNvidiaOverride] ++ fails _ :: [assigns set_DataRoot "/a"])
  = Returns (EmptyString, Some (errorString "no gpu"))
  /\ @GetDockerConfig_calls sample_constants sample_schema sample_defaults
       sample_encoders (Some {[ "dataDir" := "/mnt/c" ]})
       ([DockerNvidiaOverride] ++ fails _ :: [assigns set_DataRoot "/a"])
     = (Returns (EmptyString, Some (errorString "no gpu")),
        [CallOverride 0%nat; CallOverride 1%nat])
  /\ GetContainerdConfig_sample (Some {[ "dataDir" := "/mnt/c" ]})
       ([ContainerdKubenetOverride] ++ fails _ :: [ContainerdKubenetOverride])
     = Returns (EmptyString, Some (errorString "no gpu"))
  /\ @GetContainerdConfig_calls sample_constants sample_schema sample_defaults
       sample_encoders (Some {[ "dataDir" := "/mnt/c" ]})
       ([ContainerdKubenetOverride] ++ fails _ :: [ContainerdKubenetOverride])
     = (Returns (EmptyString, Some (errorString "no gpu")),
        [CallOverride 0%nat; CallOverride 1%nat]).
Proof.
  intros fails.
  eapply (@failing_override_aborts sample_constants sample_schema
           sample_defaults sample_encoders (Some {[ "dataDir" := "/mnt/c" ]})
           [DockerNvidiaOverride] [assigns set_DataRoot "/a"] (fails _)
           [ContainerdKubenetOverride] [ContainerdKubenetOverride] (fails _)
           _ _ _ _ (errorString "no gpu") (errorString "no gpu"));
    reflexivity.
Defined.

(** ** The SKU tables *)

Lemma TrimSuffix_append (s x : string) : strings_TrimSuffix (s +:+ x) x = s.
Proof.
  unfold strings_TrimSuffix.
  replace (strings_HasSuffix (s +:+ x) x) with true
    by (symmetry; apply HasSuffix_true; by exists s).
  rewrite length_append.
  replace (String.length s + String.length x - String.length x)%nat
    with (String.length s) by lia.
  apply substring_head.
Qed.

Lemma TrimSuffix_without (s x : string) :
  strings_HasSuffix s x = false -> strings_TrimSuffix s x = s.
Proof. unfold strings_TrimSuffix. by intros ->. Qed.

Lemma TrimSuffix_cases (s x : string) :
  strings_TrimSuffix s x = s \/ s = strings_TrimSuffix s x +:+ x.
Proof.
  unfold strings_TrimSuffix. destruct (strings_HasSuffix s x) eqn:Hs; [|by left].
  right. apply HasSuffix_true in Hs as [p ->]. rewrite length_append.
  replace (String.length p + String.length x - String.length x)%nat
    with (String.length p) by lia.
  by rewrite substring_head.
Qed.

(** Every key of the table is an N-series size, without _Promo, and is
    bound to true. *)
Lemma NvidiaEnabledSKUs_keys (s : string) (b : bool) :
  NvidiaEnabledSKUs !! s = Some b ->
  strings_HasPrefix s "Standard_N" = true
  /\ strings_HasSuffix s "_Promo" = false
  /\ b = true.
Proof.
  intros Hs%elem_of_list_to_map_2.
  repeat (apply elem_of_cons in Hs as [[= -> ->]|Hs]; [by vm_compute|]).
  by apply elem_of_nil in Hs.
Qed.

Lemma IsNvidiaEnabledSKU_lookup (s : string) :
  IsNvidiaEnabledSKU s = true ->
  exists b, NvidiaEnabledSKUs !! strings_TrimSuffix s "_Promo" = Some b.
Proof.
  unfold IsNvidiaEnabledSKU. cbv zeta.
  destruct (NvidiaEnabledSKUs !! _) as [b|]; [by exists b | done].
Qed.

(** X1: a size and the same size with _Promo after it are treated alike,
    and only one _Promo is taken off: with two of them no size is
    enabled. *)
Theorem promo_suffix_is_ignored_once (s t : string) :
  strings_HasSuffix s "_Promo" = false ->
  IsNvidiaEnabledSKU (s +:+ "_Promo") = IsNvidiaEnabledSKU s
  /\ IsNvidiaEnabledSKU (t +:+ "_Promo" +:+ "_Promo") = false.
Proof.
  intros Hs. split.
  - unfold IsNvidiaEnabledSKU. cbv zeta.
    by rewrite TrimSuffix_append, TrimSuffix_without.
  - apply not_true_is_false. intros [b Hb]%IsNvidiaEnabledSKU_lookup.
    rewrite <- append_assoc, TrimSuffix_append in Hb.
    apply NvidiaEnabledSKUs_keys in Hb as (_ & Hb & _).
    rewrite (proj2 (HasSuffix_true _ _)) in Hb; [done | by exists t].
Qed.

(** X2: the sizes with nvidia driver support are N-series sizes, and none
    of them is a size with SGX driver support. *)
Theorem nvidia_sizes_are_N_series (s : string) :
  IsNvidiaEnabledSKU s = true ->
  strings_HasPrefix s "Standard_N" = true /\ IsSgxEnabledSKU s = false.
Proof.
  intros [b Hb]%IsNvidiaEnabledSKU_lookup.
  apply NvidiaEnabledSKUs_keys in Hb as (Hp & _ & _).
  assert (Hs : strings_HasPrefix s "Standard_N" = true).
  { apply HasPrefix_true in Hp as [q Hq]. apply HasPrefix_true.
    destruct (TrimSuffix_cases s "_Promo") as [Heq | Heq].
    - exists q. by rewrite <- Heq.
    - exists (q +:+ "_Promo"). by rewrite Heq, Hq, append_assoc. }
  split; [done|].
  unfold IsSgxEnabledSKU, case_of. cbn [existsb].
  destruct (String.eqb_spec s "Standard_DC2s") as [-> | _];
    [by vm_compute in Hs|].
  destruct (String.eqb_spec s "Standard_DC4s") as [-> | _];
    [by vm_compute in Hs|].
  done.
Qed.

(** ** GetStorageAccountType *)

Lemma append_empty_l (s : string) : EmptyString +:+ s = s.
Proof. reflexivity. Qed.

Lemma append_cons (c : ascii) (a b : string) :
  String c a +:+ b = String c (a +:+ b).
Proof. reflexivity. Qed.

Lemma substring_none (s : string) : substring 0 0 s = EmptyString.
Proof. by destruct s. Qed.

Lemma HasPrefix_byte (c x : ascii) (t : string) :
  strings_HasPrefix (String c t) (String x EmptyString) = Ascii.eqb c x.
Proof.
  unfold strings_HasPrefix. cbn [String.length Nat.leb substring andb].
  rewrite substring_none. cbn [String.eqb].
  by destruct (Ascii.eqb c x).
Qed.

Lemma Contains_cons (c : ascii) (t x : string) :
  strings_Contains (String c t) x
  = strings_HasPrefix (String c t) x || strings_Contains t x.
Proof. reflexivity. Qed.

Lemma Contains_byte (c x : ascii) (t : string) :
  strings_Contains (String c t) (String x EmptyString)
  = Ascii.eqb c x || strings_Contains t (String x EmptyString).
Proof. rewrite Contains_cons. by rewrite HasPrefix_byte. Qed.

Lemma Contains_byte_append (a b : string) (x : ascii) :
  strings_Contains (a +:+ b) (String x EmptyString)
  = strings_Contains a (String x EmptyString)
    || strings_Contains b (String x EmptyString).
Proof.
  induction a as [|c a IH]; [done|].
  simpl. rewrite !Contains_byte, IH. apply orb_assoc.
Qed.

Section SplitByte.
Variable x : ascii.
#[local] Abbreviation sep := (String x EmptyString).

Lemma split_from_cons (c : ascii) (piece t : string) :
  split_from sep 0 piece (String c t)
  = if Ascii.eqb c x
    then piece :: split_from sep 0 EmptyString t
    else split_from sep 0 (piece +:+ String c EmptyString) t.
Proof. cbn [split_from]. by rewrite HasPrefix_byte. Qed.

(** A text without the separator is one piece. *)
Lemma split_from_without (piece a : string) :
  strings_Contains a sep = false -> split_from sep 0 piece a = [piece +:+ a].
Proof.
  revert piece. induction a as [|c a IH]; intros piece Ha.
  - by rewrite append_empty_r.
  - rewrite Contains_byte in Ha.
    apply orb_false_iff in Ha as [Hc Ha].
    rewrite split_from_cons, Hc, IH by done.
    by rewrite append_assoc.
Qed.

(** The first piece ends at the first separator. *)
Lemma split_from_first (piece a t : string) :
  strings_Contains a sep = false ->
  split_from sep 0 piece (a +:+ String x t)
  = (piece +:+ a) :: split_from sep 0 EmptyString t.
Proof.
  revert piece. induction a as [|c a IH]; intros piece Ha.
  - rewrite append_empty_l, split_from_cons, Ascii.eqb_refl.
    by rewrite append_empty_r.
  - rewrite Contains_byte in Ha.
    apply orb_false_iff in Ha as [Hc Ha].
    rewrite append_cons, split_from_cons, Hc, IH by done.
    by rewrite append_assoc.
Qed.

Lemma split_from_length (piece s : string) :
  (1 <= length (split_from sep 0 piece s))%nat.
Proof.
  revert piece. induction s as [|c s IH]; intros piece; [done|].
  rewrite split_from_cons. destruct (Ascii.eqb c x); [|apply IH].
  cbn [length]. lia.
Qed.

(** There are two pieces or more exactly when the separator occurs. *)
Lemma split_from_short (piece s : string) :
  (length (split_from sep 0 piece s) <? 2)%nat
  = negb (strings_Contains s sep).
Proof.
  revert piece. induction s as [|c s IH]; intros piece; [done|].
  rewrite split_from_cons, Contains_byte.
  destruct (Ascii.eqb c x); [|apply IH].
  pose proof (split_from_length EmptyString s) as Hlen.
  cbn [length negb orb]. apply Nat.ltb_ge. lia.
Qed.
End SplitByte.

Lemma lower_byte_s (c : ascii) :
  Ascii.eqb (lower_byte c) "s" = Ascii.eqb c "s" || Ascii.eqb c "S".
Proof. by destruct c as [[] [] [] [] [] [] [] []]. Qed.

(** After [ToLower] there is an s where there was an s or an S. *)
Lemma ToLower_Contains_s (s : string) :
  strings_Contains (strings_ToLower s) "s"
  = strings_Contains s "s" || strings_Contains s "S".
Proof.
  induction s as [|c s IH]; [done|].
  cbn [strings_ToLower]. rewrite !Contains_byte, lower_byte_s, IH.
  destruct (Ascii.eqb c "s"), (Ascii.eqb c "S"),
    (strings_Contains s "s"), (strings_Contains s "S"); reflexivity.
Qed.

Section StorageAccountTypeFacts.
Context `{Validator}.

(** X3: a size name without an underscore is refused, with the empty
    string and the error "Invalid sizeName: <name>"; any name with an
    underscore is given one of the two tiers and no error. *)
Theorem GetStorageAccountType_needs_underscore (sizeName : string) :
  (strings_Contains sizeName "_" = false ->
   GetStorageAccountType sizeName
   = (EmptyString, errors_New ("Invalid sizeName: " +:+ sizeName)))
  /\ (strings_Contains sizeName "_" = true ->
      GetStorageAccountType sizeName = ("Premium_LRS", nil)
      \/ GetStorageAccountType sizeName = ("Standard_LRS", nil)).
Proof.
  unfold GetStorageAccountType, strings_Split. cbv zeta.
  rewrite split_from_short. split; intros ->; cbn [negb].
  - unfold errors_Errorf, errors_New. simpl. by rewrite append_empty_r.
  - destruct (strings_Contains (strings_ToLower _) "s"); auto.
Qed.

(** X4: the tier is decided by the text between the first underscore and
    the second (or the end) alone: Premium_LRS when that text holds an s
    or an S, Standard_LRS otherwise, whatever stands before the first
    underscore and from the second on. The size name is ASCII. *)
Theorem storage_tier_is_decided_by_second_part
    (family capability rest : string) :
  strings_Contains family "_" = false ->
  strings_Contains capability "_" = false ->
  rest = EmptyString \/ strings_HasPrefix rest "_" = true ->
  is_ascii (family +:+ "_" +:+ capability +:+ rest) = true ->
  GetStorageAccountType (family +:+ "_" +:+ capability +:+ rest)
  = (if strings_Contains capability "s" || strings_Contains capability "S"
     then "Premium_LRS" else "Standard_LRS",
     nil).
Proof.
  intros Hf Hc Hrest _.
  assert (Hspl : exists more,
             strings_Split (family +:+ "_" +:+ capability +:+ rest) "_"
             = family :: capability :: more).
  { unfold strings_Split.
    change ("_" +:+ capability +:+ rest)
      with (String "_" (capability +:+ rest)).
    rewrite split_from_first by done. cbn [String.append].
    destruct Hrest as [-> | [q ->]%HasPrefix_true].
    - exists []. rewrite append_empty_r. by rewrite split_from_without.
    - exists (split_from "_" 0 EmptyString q).
      change ("_" +:+ q) with (String "_" q).
      by rewrite split_from_first. }
  destruct Hspl as [more Hspl].
  unfold GetStorageAccountType. cbv zeta. rewrite Hspl.
  cbn [length Nat.ltb Nat.leb lookup list_lookup default].
  rewrite ToLower_Contains_s. unfold id.
  by destruct (strings_Contains capability "s"
               || strings_Contains capability "S").
Qed.
End StorageAccountTypeFacts.

(** ** ValidateDNSPrefix *)

Lemma remainders_class (ranges : list (ascii * ascii)) (s s' : string) :
  s' ∈ remainders (CharClass ranges) s
  <-> exists c, s = String c s' /\ in_class ranges c = true.
Proof.
  cbn [remainders]. destruct s as [|c t].
  - rewrite elem_of_nil. split; [done | by intros (? & ? & _)].
  - destruct (in_class ranges c) eqn:Hc.
    + rewrite list_elem_of_singleton. split.
      * intros ->. by exists c.
      * by intros (? & [= -> ->] & _).
    + rewrite elem_of_nil. split; [done|].
      intros (? & [= <- _] & Hc'). congruence.
Qed.

(** What a repeated class leaves: the text after a run of bytes of the
    class that is as long as the bounds allow. *)
Lemma repeat_from_class (ranges : list (ascii * ascii)) (min max : nat)
    (s s' : string) :
  s' ∈ repeat_from (remainders (CharClass ranges)) min max s
  <-> exists run,
        s = run +:+ s'
        /\ (min <= String.length run <= max)%nat
        /\ all_bytes (in_class ranges) run = true.
Proof.
  revert min s. induction max as [|max IH]; intros min s.
  - cbn [repeat_from]. rewrite app_nil_r. destruct min as [|min].
    + rewrite list_elem_of_singleton. split.
      * intros ->. by exists EmptyString.
      * intros ([|c run] & -> & Hlen & _); [done | cbn in Hlen; lia].
    + rewrite elem_of_nil. split; [done|].
      intros (run & _ & Hlen & _). lia.
  - cbn [repeat_from]. rewrite elem_of_app, list_elem_of_bind. split.
    + intros [Hnow | (t & Hrest & Ht)].
      * destruct min; [|by apply elem_of_nil in Hnow].
        apply list_elem_of_singleton in Hnow as ->.
        exists EmptyString. repeat split; first [done | cbn; lia].
      * apply remainders_class in Ht as (c & -> & Hc).
        apply IH in Hrest as (run & -> & Hlen & Hrun).
        exists (String c run). cbn [String.length all_bytes].
        rewrite Hc, Hrun. repeat split; first [done | cbn; lia].
    + intros ([|c run] & -> & Hlen & Hrun).
      * left. destruct min; [|cbn in Hlen; lia].
        by apply list_elem_of_singleton.
      * right. cbn [all_bytes] in Hrun.
        apply andb_true_iff in Hrun as [Hc Hrun].
        exists (run +:+ s'). split.
        -- apply IH. exists run. cbn [String.length] in Hlen.
           repeat split; first [done | cbn; lia].
        -- apply remainders_class. by exists c.
Qed.

Lemma MatchString_whole (r : regexp) (s : string) :
  regexp_MatchString r s = true <-> EmptyString ∈ remainders r s.
Proof.
  unfold regexp_MatchString. rewrite existsb_exists. split.
  - intros (t & Hin & <-%String.eqb_eq). by apply list_elem_of_In.
  - intros Hin. exists EmptyString. split; [by apply list_elem_of_In | done].
Qed.

(** The pattern read as conditions on the bytes of the name. *)
Lemma dnsNameRegex_matches (s : string) :
  regexp_MatchString dnsNameRegex s = true
  <-> exists first middle last,
        s = String first (middle +:+ String last EmptyString)
        /\ (1 <= String.length middle <= 43)%nat
        /\ in_class [("A", "Z"); ("a", "z")]%char first = true
        /\ all_bytes
             (in_class [("A", "Z"); ("a", "z"); ("0", "9"); ("-", "-")]%char)
             middle = true
        /\ in_class [("A", "Z"); ("a", "z"); ("0", "9")]%char last = true.
Proof.
  rewrite MatchString_whole. unfold dnsNameRegex. cbn [remainders].
  rewrite list_elem_of_bind. split.
  - intros (t & (u & Hlast & Hmid)%list_elem_of_bind & Hfirst).
    apply (remainders_class _ s t) in Hfirst as (first & -> & Hfirst).
    apply repeat_from_class in Hmid as (middle & -> & Hlen & Hmid).
    apply (remainders_class _ u EmptyString) in Hlast as (last & -> & Hlast).
    by exists first, middle, last.
  - intros (first & middle & last & -> & Hlen & Hfirst & Hmid & Hlast).
    exists (middle +:+ String last EmptyString). split.
    + apply list_elem_of_bind. exists (String last EmptyString). split.
      * apply (remainders_class _ (String last EmptyString) EmptyString).
        by exists last.
      * apply repeat_from_class. by exists middle.
    + apply (remainders_class _ (String first _)). by exists first.
Qed.

Section DNSPrefixFacts.
Context `{Validator}.

(** X5: a DNS prefix is accepted (the result is nil) exactly when it is a
    letter, then between 1 and 43 letters, digits or hyphens, then a
    letter or a digit, so when it has between 3 and 45 bytes; any other
    name is refused with the error that quotes the name and its length in
    bytes. *)
Theorem ValidateDNSPrefix_accepts (dnsName : string) :
  (ValidateDNSPrefix dnsName = nil
   <-> exists first middle last,
         dnsName = String first (middle +:+ String last EmptyString)
         /\ (1 <= String.length middle <= 43)%nat
         /\ in_class [("A", "Z"); ("a", "z")]%char first = true
         /\ all_bytes
              (in_class [("A", "Z"); ("a", "z"); ("0", "9"); ("-", "-")]%char)
              middle = true
         /\ in_class [("A", "Z"); ("a", "z"); ("0", "9")]%char last = true)
  /\ (ValidateDNSPrefix dnsName = nil ->
      (3 <= String.length dnsName <= 45)%nat)
  /\ (ValidateDNSPrefix dnsName <> nil ->
      ValidateDNSPrefix dnsName
      = errors_New
          ("DNSPrefix '" +:+ dnsName
           +:+ "' is invalid. The DNSPrefix must contain between 3 and 45 characters and can contain only letters, numbers, and hyphens.  It must start with a letter and must end with a letter or a number. (length was "
           +:+ itoa (Z.of_nat (String.length dnsName)) +:+ ")")).
Proof.
  assert (Hiff : ValidateDNSPrefix dnsName = nil
                 <-> regexp_MatchString dnsNameRegex dnsName = true).
  { unfold ValidateDNSPrefix. cbv zeta.
    by destruct (regexp_MatchString dnsNameRegex dnsName). }
  split; [|split].
  - by rewrite Hiff, dnsNameRegex_matches.
  - rewrite Hiff, dnsNameRegex_matches.
    intros (first & middle & last & -> & Hlen & _).
    cbn [String.length]. rewrite length_append. cbn [String.length]. lia.
  - unfold ValidateDNSPrefix. cbv zeta.
    destruct (regexp_MatchString dnsNameRegex dnsName); [done|].
    intros _. cbn [negb]. unfold errors_Errorf, errors_New. by simpl.
Qed.
End DNSPrefixFacts.

(** ** GetOrderedEscapedKeyValsString *)

Lemma TrimSuffix_empty (x : string) :
  strings_TrimSuffix EmptyString (String "," x) = EmptyString.
Proof. reflexivity. Qed.

(** Appending each item with a separator after it, and the items joined
    by the separator. *)
Lemma foldl_append (f : string -> string) (keys : list string) (buf : string) :
  foldl (fun buf key => buf +:+ f key) buf keys
  = buf +:+ String.concat EmptyString (map f keys).
Proof.
  revert buf. induction keys as [|k keys IH]; intros buf.
  - by rewrite append_empty_r.
  - cbn [foldl map]. rewrite IH, append_assoc. f_equal.
    destruct keys; [|done]. cbn. by rewrite append_empty_r.
Qed.

Lemma concat_terminated (sep : string) (items : list string) :
  items <> [] ->
  String.concat EmptyString (map (fun i => i +:+ sep) items)
  = String.concat sep items +:+ sep.
Proof.
  induction items as [|i items IH]; [done|]. intros _.
  destruct items as [|j items]; [done|].
  change (String.concat EmptyString (map (fun i => i +:+ sep) (i :: j :: items)))
    with ((i +:+ sep) +:+ EmptyString
          +:+ String.concat EmptyString
                (map (fun i => i +:+ sep) (j :: items))).
  change (String.concat sep (i :: j :: items))
    with (i +:+ sep +:+ String.concat sep (j :: items)).
  rewrite IH by done. by rewrite append_empty_l, !append_assoc.
Qed.

Section KeyValsFacts.
Context `{Validator}.

(** One pair as the function writes it: the key, an equals sign and the
    value between double quotes. *)
Let quoted (config : go_map string string) (key : string) : string :=
  String dquote (key +:+ "=" +:+ map_value config key +:+ String dquote "").

Lemma keyVals_joined (config : go_map string string) (keys : list string) :
  keyVals_of_keys config keys
  = String.concat ", " (map (quoted config) (sort_Strings keys)).
Proof.
  unfold keyVals_of_keys. cbv zeta.
  rewrite (foldl_append
             (fun key => Sprintf (String dquote "%s=%s" +:+ String dquote ", ")
                           [OString key; OString (map_value config key)])).
  rewrite append_empty_l.
  assert (Hitem : forall key,
             Sprintf (String dquote "%s=%s" +:+ String dquote ", ")
               [OString key; OString (map_value config key)]
             = quoted config key +:+ ", ").
  { intros key. subst quoted. simpl.
    by rewrite !append_assoc, append_cons, !append_assoc. }
  rewrite (map_ext _ _ Hitem).
  destruct (sort_Strings keys) as [|k ks] eqn:Hks; [done|].
  rewrite <- (map_map (quoted config) (fun i => i +:+ ", ")).
  rewrite concat_terminated by done.
  apply TrimSuffix_append.
Qed.

Lemma sort_Strings_unique (keys keys' : list string) :
  keys ≡ₚ keys' -> sort_Strings keys = sort_Strings keys'.
Proof.
  intros Hp. unfold sort_Strings.
  apply (StronglySorted_unique String.le);
    [apply StronglySorted_merge_sort; apply _..|].
  by rewrite !merge_sort_Permutation.
Qed.

(** X6: the text does not depend on the order in which the loop over the
    map yields the keys: collected in any order, the keys give the same
    text. *)
Theorem keyVals_any_iteration_order (config : go_map string string)
    (keys : list string) :
  keys ≡ₚ range_keys config ->
  keyVals_of_keys config keys = GetOrderedEscapedKeyValsString config.
Proof.
  intros Hp. unfold GetOrderedEscapedKeyValsString.
  by rewrite !keyVals_joined, (sort_Strings_unique _ _ Hp).
Qed.

(** X7: the text is the pairs "key=value" of the map, each between double
    quotes and with the value as it is, joined by a comma and a space with
    none at the end, every key once, in ascending order of the keys byte
    by byte; for a nil or empty map it is the empty string. *)
Theorem keyVals_sorted_and_joined (config : go_map string string) :
  exists keys,
    GetOrderedEscapedKeyValsString config
    = String.concat ", "
        (map (fun key =>
                String dquote
                  (key +:+ "=" +:+ map_value config key +:+ String dquote ""))
             keys)
    /\ StronglySorted String.le keys
    /\ NoDup keys
    /\ (forall key, key ∈ keys <-> is_Some (map_index config key))
    /\ (keys = [] -> GetOrderedEscapedKeyValsString config = EmptyString).
Proof.
  exists (sort_Strings (range_keys config)).
  assert (Hp : sort_Strings (range_keys config) ≡ₚ range_keys config)
    by apply merge_sort_Permutation.
  split; [apply keyVals_joined|]. split; [|split; [|split]].
  - apply StronglySorted_merge_sort; apply _.
  - rewrite Hp. destruct config as [m|]; [|constructor].
    apply NoDup_fst_map_to_list.
  - intros key. rewrite Hp. destruct config as [m|]; cbn.
    + rewrite list_elem_of_fmap. split.
      * intros ([k v] & -> & Hkv%elem_of_map_to_list). by exists v.
      * intros [v Hv]. exists (key, v). by rewrite elem_of_map_to_list.
    + rewrite elem_of_nil. split; [done | by intros [? ?]].
  - intros Hnil. unfold GetOrderedEscapedKeyValsString.
    by rewrite keyVals_joined, Hnil.
Qed.
End KeyValsFacts.

(** ** IndentString *)

#[local] Abbreviation NL := (String "010" EmptyString).
#[local] Abbreviation CR := (String "013" EmptyString).

Lemma dropCR_TrimSuffix (data : string) :
  dropCR data = strings_TrimSuffix data CR.
Proof. reflexivity. Qed.

Lemma dropCR_without (data : string) :
  strings_HasSuffix data CR = false -> dropCR data = data.
Proof. rewrite dropCR_TrimSuffix. apply TrimSuffix_without. Qed.

Lemma dropCR_append (data : string) : dropCR (data +:+ CR) = data.
Proof. rewrite dropCR_TrimSuffix. apply TrimSuffix_append. Qed.

Lemma scan_lines_cons (line : string) (c : ascii) (data : string) :
  scan_lines line (String c data)
  = if Ascii.eqb c "010"
    then
      if Z.of_nat (String.length line) <? MaxScanTokenSize
      then dropCR line :: scan_lines EmptyString data
      else []
    else scan_lines (line +:+ String c EmptyString) data.
Proof. reflexivity. Qed.

Lemma scan_lines_end (line : string) :
  scan_lines line EmptyString
  = if String.eqb line EmptyString then []
    else if Z.of_nat (String.length line) <? MaxScanTokenSize
         then [dropCR line]
         else [].
Proof. reflexivity. Qed.

#[local] Opaque MaxScanTokenSize.

(** The bytes before a newline go to the line being read. *)
Lemma scan_lines_append (line l data : string) :
  strings_Contains l NL = false ->
  scan_lines line (l +:+ data) = scan_lines (line +:+ l) data.
Proof.
  revert line. induction l as [|c l IH]; intros line Hl.
  - by rewrite append_empty_l, append_empty_r.
  - rewrite Contains_byte in Hl. apply orb_false_iff in Hl as [Hc Hl].
    rewrite append_cons, scan_lines_cons, Hc, IH by done.
    by rewrite append_assoc.
Qed.

(** Once the line being read is too long for the buffer, nothing more is
    yielded. *)
Lemma scan_lines_too_long (line data : string) :
  MaxScanTokenSize <= Z.of_nat (String.length line) ->
  scan_lines line data = [].
Proof.
  revert line. induction data as [|c data IH]; intros line Hlen.
  - rewrite scan_lines_end.
    destruct (String.eqb line EmptyString); [done|].
    by rewrite (proj2 (Z.ltb_ge _ _) Hlen).
  - rewrite scan_lines_cons. destruct (Ascii.eqb c "010").
    + by rewrite (proj2 (Z.ltb_ge _ _) Hlen).
    + apply IH. rewrite length_append. lia.
Qed.

Lemma HasSuffix_cons_byte (c x : ascii) (t : string) :
  strings_HasSuffix (String c t) (String x EmptyString) = true ->
  (t = EmptyString /\ c = x)
  \/ strings_HasSuffix t (String x EmptyString) = true.
Proof.
  intros [[|d p] Hp]%HasSuffix_true.
  - left. by injection Hp as -> ->.
  - right. rewrite append_cons in Hp. injection Hp as _ ->.
    apply HasSuffix_true. by exists p.
Qed.

Lemma IndentString_lines (original : string) (spaces : Z) :
  IndentString original spaces
  = String.concat EmptyString
      (map (fun text => spaces_of (Z.to_nat spaces) +:+ text +:+ NL)
           (scan_lines EmptyString original)).
Proof.
  unfold IndentString.
  by rewrite (foldl_append
                (fun text => spaces_of (Z.to_nat spaces) +:+ text +:+ NL)).
Qed.

Section LongLine.
Variables (long post : string).
Hypothesis long_line : strings_Contains long NL = false.
Hypothesis long_size : MaxScanTokenSize <= Z.of_nat (String.length long).

Lemma scan_lines_long (line : string) :
  scan_lines line (long +:+ post) = [].
Proof.
  rewrite scan_lines_append by done. apply scan_lines_too_long.
  rewrite length_append. lia.
Qed.

Lemma scan_lines_before_long (pre line : string) :
  strings_HasSuffix pre NL = true ->
  scan_lines line (pre +:+ long +:+ post) = scan_lines line pre.
Proof.
  revert line. induction pre as [|c pre IH]; intros line Hpre; [done|].
  rewrite append_cons, !scan_lines_cons.
  apply HasSuffix_cons_byte in Hpre as [[-> ->] | Hpre].
  - rewrite Ascii.eqb_refl, append_empty_l, scan_lines_long.
    by destruct (Z.of_nat (String.length line) <? MaxScanTokenSize).
  - rewrite !IH by done. reflexivity.
Qed.
End LongLine.

(** X8: a line of 65536 bytes or more ends the output: the lines before
    it are indented, and neither the long line nor any line after it is
    written. *)
Theorem IndentString_stops_at_long_line
    (pre long post : string) (spaces : Z) :
  pre = EmptyString \/ strings_HasSuffix pre NL = true ->
  strings_Contains long NL = false ->
  MaxScanTokenSize <= Z.of_nat (String.length long) ->
  IndentString (pre +:+ long +:+ post) spaces = IndentString pre spaces.
Proof.
  intros Hpre Hlong Hsize. rewrite !IndentString_lines.
  destruct Hpre as [-> | Hpre].
  - rewrite append_empty_l, scan_lines_long; done.
  - rewrite scan_lines_before_long; done.
Qed.

Lemma concat_cons (x : string) (xs : list string) :
  String.concat EmptyString (x :: xs) = x +:+ String.concat EmptyString xs.
Proof. destruct xs; [by rewrite append_empty_r | done]. Qed.

Lemma HasSuffix_cons (c : ascii) (t x : string) :
  strings_HasSuffix t x = true -> strings_HasSuffix (String c t) x = true.
Proof.
  intros [p ->]%HasSuffix_true. apply HasSuffix_true. by exists (String c p).
Qed.

Lemma HasSuffix_Contains_byte (s : string) (x : ascii) :
  strings_HasSuffix s (String x EmptyString) = true ->
  strings_Contains s (String x EmptyString) = true.
Proof.
  intros [p ->]%HasSuffix_true.
  rewrite Contains_byte_append, Contains_byte, Ascii.eqb_refl.
  apply orb_true_r.
Qed.

Lemma spaces_of_length (n : nat) : String.length (spaces_of n) = n.
Proof. induction n as [|n IH]; [done|]. cbn. by rewrite IH. Qed.

Lemma spaces_of_Contains (n : nat) (x : ascii) :
  x <> " "%char -> strings_Contains (spaces_of n) (String x EmptyString) = false.
Proof.
  intros Hx. induction n as [|n IH]; [done|].
  cbn [spaces_of]. rewrite append_cons, append_empty_l, Contains_byte, IH.
  apply orb_false_iff. split; [|done]. apply Ascii.eqb_neq. congruence.
Qed.

Lemma spaces_of_add (n m : nat) :
  spaces_of (n + m) = spaces_of n +:+ spaces_of m.
Proof.
  induction n as [|n IH]; [done|]. cbn [Nat.add spaces_of].
  by rewrite IH, !append_cons, !append_empty_l.
Qed.

(** The scanner reads back the lines a text was put together from. *)
Lemma scan_lines_of_lines (ls : list string) (eol : string) :
  eol = NL \/ eol = CR +:+ NL ->
  Forall (fun l =>
            strings_Contains l NL = false
            /\ strings_HasSuffix l CR = false
            /\ Z.of_nat (String.length (l +:+ eol)) <= MaxScanTokenSize) ls ->
  scan_lines EmptyString
    (String.concat EmptyString (map (fun l => l +:+ eol) ls))
  = ls.
Proof.
  intros Heol Hls. induction Hls as [|l ls (Hnl & Hcr & Hlen) _ IH]; [done|].
  cbn [map]. rewrite concat_cons. destruct Heol as [-> | ->].
  - rewrite append_assoc, scan_lines_append by done.
    rewrite append_cons, append_empty_l, scan_lines_cons, Ascii.eqb_refl.
    rewrite length_append in Hlen. cbn [String.length] in Hlen.
    rewrite (proj2 (Z.ltb_lt _ _)) by lia.
    by rewrite dropCR_without, append_empty_l, IH.
  - rewrite <- (append_assoc l), append_assoc.
    rewrite scan_lines_append
      by (rewrite Contains_byte_append, Hnl; reflexivity).
    rewrite append_cons, append_empty_l, scan_lines_cons, Ascii.eqb_refl.
    rewrite !length_append in Hlen. cbn [String.length] in Hlen.
    rewrite append_empty_l, length_append. cbn [String.length].
    rewrite (proj2 (Z.ltb_lt _ _)) by lia.
    by rewrite dropCR_append, ?append_empty_l, IH.
Qed.

(** X9: for lines that hold no newline, do not end in a carriage return
    and fit the scanner's buffer with their line ending, the text made of
    the lines, each ended by a newline or each by a carriage return and a
    newline, is indented line by line: every line gets the spaces before
    it and one newline after it. *)
Theorem IndentString_of_lines (ls : list string) (eol : string) (spaces : Z) :
  eol = NL \/ eol = CR +:+ NL ->
  Forall (fun l =>
            strings_Contains l NL = false
            /\ strings_HasSuffix l CR = false
            /\ Z.of_nat (String.length (l +:+ eol)) <= MaxScanTokenSize) ls ->
  IndentString (String.concat EmptyString (map (fun l => l +:+ eol) ls)) spaces
  = String.concat EmptyString
      (map (fun l => spaces_of (Z.to_nat spaces) +:+ l +:+ NL) ls).
Proof.
  intros Heol Hls. rewrite IndentString_lines.
  by rewrite (scan_lines_of_lines ls eol Heol Hls).
Qed.

Lemma scan_lines_final_newline (data line : string) :
  line +:+ data <> EmptyString ->
  strings_HasSuffix data NL = false ->
  scan_lines line (data +:+ NL) = scan_lines line data.
Proof.
  revert line. induction data as [|c data IH]; intros line Hne Hend.
  - rewrite append_empty_r in Hne.
    rewrite append_empty_l, scan_lines_cons, Ascii.eqb_refl, !scan_lines_end.
    apply String.eqb_neq in Hne as ->. cbn [String.eqb].
    by destruct (Z.of_nat (String.length line) <? MaxScanTokenSize).
  - assert (Hend' : strings_HasSuffix data NL = false).
    { apply not_true_is_false. intros Hd.
      by rewrite (HasSuffix_cons c _ _ Hd) in Hend. }
    rewrite append_cons, !scan_lines_cons.
    destruct (Ascii.eqb_spec c "010") as [-> | Hc].
    + rewrite IH; [done | | done].
      rewrite append_empty_l. by intros ->.
    + apply IH; [|done]. by destruct line.
Qed.

(** X10: a last line without a newline is written as if it had one: for
    a text that is not empty and does not end in a newline, the output is
    the same with the newline added. *)
Theorem IndentString_final_newline (original : string) (spaces : Z) :
  original <> EmptyString ->
  strings_HasSuffix original NL = false ->
  IndentString (original +:+ NL) spaces = IndentString original spaces.
Proof.
  intros Hne Hend. rewrite !IndentString_lines.
  by rewrite scan_lines_final_newline.
Qed.

(** The lines of a text without carriage returns: they hold neither a
    newline nor a carriage return, and are no longer than the text. *)
Lemma scan_lines_tokens (data line : string) :
  strings_Contains line NL = false ->
  strings_Contains line CR = false ->
  strings_Contains data CR = false ->
  Forall (fun t =>
            strings_Contains t NL = false
            /\ strings_Contains t CR = false
            /\ (String.length t <= String.length line + String.length data)%nat)
         (scan_lines line data).
Proof.
  revert line. induction data as [|c data IH]; intros line Hnl Hcr Hdata.
  - rewrite scan_lines_end. destruct (String.eqb line EmptyString); [done|].
    destruct (Z.of_nat (String.length line) <? MaxScanTokenSize); [|done].
    constructor; [|done]. rewrite dropCR_without.
    + repeat split; [done..|lia].
    + apply not_true_is_false. intros Hs%HasSuffix_Contains_byte. congruence.
  - rewrite Contains_byte in Hdata. apply orb_false_iff in Hdata as [Hc Hdata].
    rewrite scan_lines_cons. destruct (Ascii.eqb c "010") eqn:Hnew.
    + destruct (Z.of_nat (String.length line) <? MaxScanTokenSize); [|done].
      constructor.
      * rewrite dropCR_without.
        -- repeat split; [done..|lia].
        -- apply not_true_is_false. intros Hs%HasSuffix_Contains_byte.
           congruence.
      * eapply Forall_impl; [by apply IH|].
        intros t (? & ? & Hlen). cbn [String.length] in *.
        repeat split; [done..|lia].
    + eapply Forall_impl.
      * apply IH; [| |done].
        -- rewrite Contains_byte_append, Hnl, Contains_byte, Hnew. done.
        -- rewrite Contains_byte_append, Hcr, Contains_byte, Hc. done.
      * intros t (? & ? & Hlen). rewrite length_append in Hlen.
        cbn [String.length] in *. repeat split; [done..|lia].
Qed.

(** X11: indenting twice is indenting once by the sum, for a text without
    carriage returns whose indented lines still fit the scanner's
    buffer. *)
Theorem IndentString_twice (original : string) (a b : Z) :
  0 <= a -> 0 <= b ->
  strings_Contains original CR = false ->
  Z.of_nat (String.length original) + a < MaxScanTokenSize ->
  IndentString (IndentString original a) b = IndentString original (a + b).
Proof.
  intros Ha Hb Hcr Hlen.
  rewrite (IndentString_lines original a), (IndentString_lines original (a + b)).
  pose proof (scan_lines_tokens original EmptyString eq_refl eq_refl Hcr)
    as Htokens.
  set (tokens := scan_lines EmptyString original) in *.
  assert (Hmap :
            map (fun text => spaces_of (Z.to_nat a) +:+ text +:+ NL) tokens
            = map (fun l => l +:+ NL)
                  (map (fun t => spaces_of (Z.to_nat a) +:+ t) tokens)).
  { rewrite map_map. apply map_ext. intros t. by rewrite append_assoc. }
  rewrite Hmap, IndentString_of_lines; [|by left|].
  - rewrite map_map. f_equal. apply map_ext. intros t.
    rewrite Z2Nat.inj_add, Nat.add_comm, spaces_of_add by lia.
    by rewrite !append_assoc.
  - apply Forall_fmap. eapply Forall_impl; [exact Htokens|].
    intros t (Hnl & Hcr' & Ht). cbn [String.length] in Ht. cbn.
    repeat split.
    + rewrite Contains_byte_append, Hnl, spaces_of_Contains; done.
    + apply not_true_is_false. intros Hs%HasSuffix_Contains_byte.
      rewrite Contains_byte_append, Hcr', spaces_of_Contains in Hs; done.
    + rewrite !length_append, spaces_of_length. cbn [String.length]. lia.
Qed.

(** ** Where HandleValidationErrors panics *)

Section TranslatePanics.
Context `{Validator} `{Constants}.

(** The paths whose template prints the value as an int, and those whose
    template prints it as a string. *)
Let prints_int (ns : string) : Prop :=
  ns = "Properties.MasterProfile.OSDiskSizeGB"
  \/ (strings_HasPrefix ns "Properties.AgentPoolProfiles" = true
      /\ strings_HasSuffix ns ".OSDiskSizeGB" = true).

Let prints_string (ns : string) : Prop :=
  ns = "Properties.MasterProfile.StorageProfile"
  \/ (strings_HasPrefix ns "Properties.AgentPoolProfiles" = true
      /\ strings_HasSuffix ns ".StorageProfile" = true
      /\ strings_Contains ns ".Ports" = false).

Lemma translate_panics_only (err : FieldError) (rest : ValidationErrors)
    (p : panic) :
  HandleValidationErrors (err :: rest) = Panics p ->
  p = InterfaceConversion
  /\ ((prints_int (Namespace err) /\ forall n, Value err <> VInt n)
      \/ (prints_string (Namespace err) /\ forall s, Value err <> VString s)).
Proof.
  subst prints_int prints_string.
  unfold HandleValidationErrors. cbv zeta.
  destruct (case_of _ [_; _; _; _; _; _; _; _; _]) eqn:E1;
    [intros ?; discriminate|].
  destruct (case_of _ ["Properties.MasterProfile.Count"]) eqn:E2;
    [intros ?; discriminate|].
  destruct (case_of _ ["Properties.MasterProfile.OSDiskSizeGB"]) eqn:E3.
  { apply case_of_one in E3.
    destruct (Value err); cbn [assert_int mbind outcome_bind];
      intros [= <-]; (split; [done|]); left; (split; [by left | done]). }
  destruct (case_of _ ["Properties.MasterProfile.IPAddressCount"]) eqn:E4;
    [intros ?; discriminate|].
  destruct (case_of _ ["Properties.MasterProfile.StorageProfile"]) eqn:E5.
  { apply case_of_one in E5.
    destruct (Value err); cbn [assert_string mbind outcome_bind];
      intros [= <-]; (split; [done|]); right; (split; [by left | done]). }
  destruct (strings_HasPrefix _ _) eqn:Hp; [|intros ?; discriminate].
  destruct (_ || _) eqn:T1; [intros ?; discriminate|].
  destruct (strings_HasSuffix _ ".Count") eqn:T2; [intros ?; discriminate|].
  destruct (strings_HasSuffix _ ".OSDiskSizeGB") eqn:T3.
  { destruct (Value err); cbn [assert_int mbind outcome_bind];
      intros [= <-]; (split; [done|]); left; (split; [by right | done]). }
  destruct (strings_Contains _ ".Ports") eqn:T4; [intros ?; discriminate|].
  destruct (strings_HasSuffix _ ".StorageProfile") eqn:T5.
  { destruct (Value err); cbn [assert_string mbind outcome_bind];
      intros [= <-]; (split; [done|]); right; (split; [by right | done]). }
  destruct (strings_Contains _ ".DiskSizesGB"); [intros ?; discriminate|].
  destruct (strings_HasSuffix _ ".IPAddressCount"); intros ?; discriminate.
Qed.

Lemma translate_panics_int (err : FieldError) (rest : ValidationErrors) :
  prints_int (Namespace err) -> (forall n, Value err <> VInt n) ->
  HandleValidationErrors (err :: rest) = Panics InterfaceConversion.
Proof.
  subst prints_int. destruct err as [ns v tg]. cbn [Namespace Value].
  intros [-> | [Hp Hs]] Hv.
  - destruct v; [by destruct (Hv n) | reflexivity..].
  - destruct (exact_paths_split _ (agent_pool_not_exact _ Hp))
      as (H1 & H2 & H3 & H4 & H5).
    unfold HandleValidationErrors. cbv zeta. cbn [Namespace Value].
    rewrite H1, H2, H3, H4, H5, Hp, Hs.
    rewrite (HasSuffix_excludes _ ".OSDiskSizeGB" ".Name") by done.
    rewrite (HasSuffix_excludes _ ".OSDiskSizeGB" "VMSize") by done.
    rewrite (HasSuffix_excludes _ ".OSDiskSizeGB" ".Count") by done.
    cbn [orb]. destruct v; [by destruct (Hv n) | reflexivity..].
Qed.

Lemma translate_panics_string (err : FieldError) (rest : ValidationErrors) :
  prints_string (Namespace err) -> (forall s, Value err <> VString s) ->
  HandleValidationErrors (err :: rest) = Panics InterfaceConversion.
Proof.
  subst prints_string. destruct err as [ns v tg]. cbn [Namespace Value].
  intros [-> | (Hp & Hs & Hports)] Hv.
  - destruct v; [reflexivity | by destruct (Hv s) | reflexivity].
  - destruct (exact_paths_split _ (agent_pool_not_exact _ Hp))
      as (H1 & H2 & H3 & H4 & H5).
    unfold HandleValidationErrors. cbv zeta. cbn [Namespace Value].
    rewrite H1, H2, H3, H4, H5, Hp, Hs, Hports.
    rewrite (HasSuffix_excludes _ ".StorageProfile" ".Name") by done.
    rewrite (HasSuffix_excludes _ ".StorageProfile" "VMSize") by done.
    rewrite (HasSuffix_excludes _ ".StorageProfile" ".Count") by done.
    rewrite (HasSuffix_excludes _ ".StorageProfile" ".OSDiskSizeGB") by done.
    cbn [orb]. destruct v; [reflexivity | by destruct (Hv s) | reflexivity].
Qed.

(** X12: the translation panics in two situations and no other: on an
    empty batch (index out of range), and when the first failure's value
    is not of the type its template prints (interface conversion): not an
    int under Properties.MasterProfile.OSDiskSizeGB or under an agent-pool
    path ending in .OSDiskSizeGB, not a string under
    Properties.MasterProfile.StorageProfile or under an agent-pool path
    that ends in .StorageProfile and holds no .Ports. *)
Theorem translate_panics_exactly (e : ValidationErrors) (p : panic) :
  HandleValidationErrors e = Panics p
  <-> (e = [] /\ p = IndexOutOfRange)
      \/ (exists err rest,
            e = err :: rest
            /\ p = InterfaceConversion
            /\ (((Namespace err = "Properties.MasterProfile.OSDiskSizeGB"
                  \/ (strings_HasPrefix (Namespace err)
                        "Properties.AgentPoolProfiles" = true
                      /\ strings_HasSuffix (Namespace err) ".OSDiskSizeGB"
                         = true))
                 /\ forall n, Value err <> VInt n)
                \/ ((Namespace err = "Properties.MasterProfile.StorageProfile"
                     \/ (strings_HasPrefix (Namespace err)
                           "Properties.AgentPoolProfiles" = true
                         /\ strings_HasSuffix (Namespace err) ".StorageProfile"
                            = true
                         /\ strings_Contains (Namespace err) ".Ports" = false))
                    /\ forall s, Value err <> VString s))).
Proof.
  split.
  - destruct e as [|err rest].
    + intros [= <-]. by left.
    + intros Hp. right. exists err, rest.
      apply translate_panics_only in Hp as [-> Hp]. done.
  - intros [[-> ->] | (err & rest & -> & -> & [[Hns Hv] | [Hns Hv]])].
    + reflexivity.
    + by apply translate_panics_int.
    + by apply translate_panics_string.
Qed.
End TranslatePanics.

(** ** How the overrides of the file compose *)

Section OverrideFacts.
Context `{Constants} `{Defaults} `{!Encoders}.
Implicit Types (opts : go_map string string).

Lemma range_overrides_pair {C : Type} (f g h : override C)
    (pre post : list (override C)) (config : C) :
  (forall c, range_overrides (f :: g :: post) c
             = range_overrides (h :: post) c) ->
  range_overrides (pre ++ f :: g :: post) config
  = range_overrides (pre ++ h :: post) config.
Proof.
  intros Hpair. rewrite !range_overrides_app.
  destruct (range_overrides pre config) as [[c|err]|p];
    cbn [mbind outcome_bind]; [apply Hpair | done..].
Qed.

Lemma range_overrides_swap {C : Type} (f g : override C)
    (pre post : list (override C)) (config : C) :
  (forall c, range_overrides (f :: g :: post) c
             = range_overrides (g :: f :: post) c) ->
  range_overrides (pre ++ f :: g :: post) config
  = range_overrides (pre ++ g :: f :: post) config.
Proof.
  intros Hpair. rewrite !range_overrides_app.
  destruct (range_overrides pre config) as [[c|err]|p];
    cbn [mbind outcome_bind]; [apply Hpair | done..].
Qed.

(** X13: the two containerd overrides write different fields: in a
    sequence of overrides, ContainerdKubenetOverride and a
    ContainerdSandboxImageOverrider next to each other can change places,
    and ContainerdKubenetOverride twice in a row is the same as once;
    neither returns an error or touches Root. *)
Theorem containerd_overrides_commute opts (image : string)
    (pre post : list (override ContainerdConfig)) (config : ContainerdConfig) :
  GetContainerdConfig opts
    (pre ++ ContainerdKubenetOverride
         :: ContainerdSandboxImageOverrider image :: post)
  = GetContainerdConfig opts
      (pre ++ ContainerdSandboxImageOverrider image
           :: ContainerdKubenetOverride :: post)
  /\ GetContainerdConfig opts
       (pre ++ ContainerdKubenetOverride :: ContainerdKubenetOverride :: post)
     = GetContainerdConfig opts (pre ++ ContainerdKubenetOverride :: post)
  /\ (exists config',
         ContainerdKubenetOverride config = Returns (config', nil)
         /\ Root config' = Root config
         /\ SandboxImage (IoContainerdGrpcV1Cri (Plugins config'))
            = SandboxImage (IoContainerdGrpcV1Cri (Plugins config)))
  /\ (exists config',
         ContainerdSandboxImageOverrider image config = Returns (config', nil)
         /\ Root config' = Root config
         /\ ConfTemplate (CNI (IoContainerdGrpcV1Cri (Plugins config')))
            = ConfTemplate (CNI (IoContainerdGrpcV1Cri (Plugins config)))).
Proof.
  split; [|split; [|split]].
  - unfold GetContainerdConfig. cbv zeta.
    rewrite (range_overrides_swap ContainerdKubenetOverride
               (ContainerdSandboxImageOverrider image)); [done|].
    by intros [root [[img [template more0] more1] more2] more3].
  - unfold GetContainerdConfig. cbv zeta.
    rewrite (range_overrides_pair ContainerdKubenetOverride
               ContainerdKubenetOverride ContainerdKubenetOverride);
      [done|].
    by intros [root [[img [template more0] more1] more2] more3].
  - eexists. by split.
  - eexists. by split.
Qed.

(** X14: DockerNvidiaOverride twice in a row, anywhere in a sequence of
    overrides, is the same as once. *)
Theorem nvidia_override_idempotent opts
    (pre post : list (override DockerConfig)) :
  GetDockerConfig opts
    (pre ++ DockerNvidiaOverride :: DockerNvidiaOverride :: post)
  = GetDockerConfig opts (pre ++ DockerNvidiaOverride :: post).
Proof.
  unfold GetDockerConfig. cbv zeta.
  rewrite (range_overrides_pair DockerNvidiaOverride DockerNvidiaOverride
             DockerNvidiaOverride); [done|].
  intros [root runtime [runtimes|] more];
    cbn [range_overrides DockerNvidiaOverride DockerDaemonRuntimes
         set_DockerDaemonRuntimes set_DefaultRuntime make_map map_store
         DataRoot DefaultRuntime DockerConfig_rest mbind outcome_bind];
    by rewrite insert_insert_eq.
Qed.
End OverrideFacts.

(** ** The properties above on concrete inputs *)

#[local] Transparent MaxScanTokenSize.

Lemma promo_suffix_is_ignored_once_witness :
  IsNvidiaEnabledSKU ("Standard_NC6" +:+ "_Promo")
  = IsNvidiaEnabledSKU "Standard_NC6"
  /\ IsNvidiaEnabledSKU ("Standard_NC6" +:+ "_Promo" +:+ "_Promo") = false.
Proof.
  apply (promo_suffix_is_ignored_once "Standard_NC6" "Standard_NC6").
  reflexivity.
Defined.

Lemma nvidia_sizes_are_N_series_witness :
  strings_HasPrefix "Standard_NV12_Promo" "Standard_N" = true
  /\ IsSgxEnabledSKU "Standard_NV12_Promo" = false.
Proof.
  apply (nvidia_sizes_are_N_series "Standard_NV12_Promo").
  vm_compute. reflexivity.
Defined.

Lemma storage_tier_is_decided_by_second_part_witness :
  @GetStorageAccountType sample_validator
    ("Standard" +:+ "_" +:+ "DS2" +:+ "_v2")
  = (if strings_Contains "DS2" "s" || strings_Contains "DS2" "S"
     then "Premium_LRS" else "Standard_LRS",
     nil).
Proof.
  apply (@storage_tier_is_decided_by_second_part sample_validator
           "Standard" "DS2" "_v2").
  - reflexivity.
  - reflexivity.
  - right. reflexivity.
  - reflexivity.
Defined.

Lemma keyVals_any_iteration_order_witness :
  let config : go_map string string :=
    Some {[ "b" := "2"; "a" := "1"; "c" := "3" ]} in
  @keyVals_of_keys sample_validator config ["a"; "b"; "c"]
  = @GetOrderedEscapedKeyValsString sample_validator config.
Proof.
  intros config.
  apply (@keyVals_any_iteration_order sample_validator config ["a"; "b"; "c"]).
  vm_compute. symmetry. apply (Permutation_cons_append ["a"; "b"] "c").
Defined.

Lemma IndentString_stops_at_long_line_witness :
  IndentString
    (String "a" NL +:+ spaces_of (Z.to_nat 65536) +:+ String "b" NL) 2
  = IndentString (String "a" NL) 2.
Proof.
  apply (IndentString_stops_at_long_line
           (String "a" NL) (spaces_of (Z.to_nat 65536)) (String "b" NL) 2).
  - right. reflexivity.
  - apply spaces_of_Contains. discriminate.
  - rewrite spaces_of_length, Z2Nat.id by lia. unfold MaxScanTokenSize. lia.
Defined.

Lemma IndentString_of_lines_witness :
  IndentString
    (String.concat EmptyString
       (map (fun l => l +:+ (CR +:+ NL)) ["{"; "  x"; ""; "}"])) 4
  = String.concat EmptyString
      (map (fun l => spaces_of (Z.to_nat 4) +:+ l +:+ NL)
           ["{"; "  x"; ""; "}"]).
Proof.
  apply (IndentString_of_lines ["{"; "  x"; ""; "}"] (CR +:+ NL) 4).
  - right. reflexivity.
  - unfold MaxScanTokenSize.
    repeat (apply Forall_cons; split;
            [repeat split; first [reflexivity | cbn; lia]|]).
    apply Forall_nil_2.
Defined.

Lemma IndentString_final_newline_witness :
  IndentString ("a" +:+ NL) 2 = IndentString "a" 2.
Proof.
  apply (IndentString_final_newline "a" 2).
  - discriminate.
  - reflexivity.
Defined.

Lemma IndentString_twice_witness :
  IndentString (IndentString (String "a" (String "010" "b")) 2) 3
  = IndentString (String "a" (String "010" "b")) (2 + 3).
Proof.
  apply (IndentString_twice (String "a" (String "010" "b")) 2 3).
  - lia.
  - lia.
  - reflexivity.
  - unfold MaxScanTokenSize. cbn. lia.
Defined.
